(** * gtrans: a command-line translator over the Google Translate API

    A shallow embedding of [gtrans.go] and the properties of its decision
    logic: locale parsing, target-language selection, credential handling,
    the language "bounce", and the browser mode.

    Go strings are byte sequences; they are modelled by [string] (a list of
    8-bit [ascii]).  The process environment is a finite map from names to
    values.  The remote services and the operating system are collaborators
    whose answers are fields of a [World]; every call to one of them is
    recorded in a trace of [event]s. *)

From Stdlib Require Import String Ascii List ZArith Lia Bool Sorted.
From stdpp Require Import base option gmap strings.
Import ListNotations.

Local Open Scope string_scope.
Local Open Scope Z_scope.
Local Open Scope list_scope.

(** ** Package [strings] *)

Module gostrings.

(** [s[:n]] for [0 <= n <= len(s)]: the first [n] bytes. *)
Fixpoint first_n (n : nat) (s : string) : string :=
  match n, s with
  | S n', String c s' => String c (first_n n' s')
  | _, _ => ""
  end.

(** [len(s)] *)
Definition len (s : string) : Z := Z.of_nat (String.length s).

(** [func HasPrefix(s, prefix string) bool {
       return len(s) >= len(prefix) && s[0:len(prefix)] == prefix }] *)
Definition HasPrefix (s prefix : string) : bool :=
  (len prefix <=? len s) && String.eqb (first_n (String.length prefix) s) prefix.

(** [Index(s, substr)]: the index of the first instance of [substr] in
    [s], or [-1] if [substr] is not present in [s].  [index_from s substr i]
    scans [s], which starts at offset [i] of the original string. *)
Fixpoint index_from (s substr : string) (i : Z) : Z :=
  if HasPrefix s substr then i
  else match s with
       | "" => -1
       | String _ s' => index_from s' substr (i + 1)
       end.

Definition Index (s substr : string) : Z := index_from s substr 0.

(** [Join(elems, sep)] *)
Fixpoint Join (elems : list string) (sep : string) : string :=
  match elems with
  | [] => ""
  | [e] => e
  | e :: rest => e +:+ sep +:+ Join rest sep
  end.

End gostrings.

(** The slice expression [s[:i]].  Go panics when [i] is outside
    [0..len(s)]; the only use below is proved in range
    ([Index_underscore_in_range]). *)
Definition slice_to (s : string) (i : Z) : string := gostrings.first_n (Z.to_nat i) s.

(** ** Locale Resolver: [langCodeFromLocale] (gtrans.go:197-213) *)

Definition langCodeFromLocale (locale : string) : string :=
  if gostrings.HasPrefix locale "zh_CN" || gostrings.HasPrefix locale "zh_SG" then
    "zh-CN"
  else if gostrings.HasPrefix locale "zh_TW" || gostrings.HasPrefix locale "zh_HK" then
    "zh-TW"
  else
    let i := gostrings.Index locale "_" in
    if i =? -1 then ""
    else slice_to locale i.

(** ** Errors *)

(** Go's [error] interface is observed only through [Error()]; an error
    value is its message.  [nil] is [None] in [option error]. *)
Record error : Type := errorString { Error : string }.

Definition errors_New (text : string) : error := errorString text.

(** [fmt.Errorf(prefix + "%v", err)] *)
Definition fmt_Errorf_v (prefix : string) (err : error) : error :=
  errorString (prefix +:+ Error err).

(** ** The environment *)

(** [os.Getenv(key)]: the value of the variable, which is empty when the
    variable is not present. *)
Definition Getenv (env : gmap string string) (key : string) : string :=
  default "" (env !! key).

(** ** Target Language Selector: [detectTargetLang] (gtrans.go:183-194) *)

Definition errCannotDetect : error :=
  errors_New "cannot detect language. Please export $LANG or $GOOGLE_TRANSLATE_LANG (e.g. en, ja)".

(** The [for _, env := range ...] loop with its early [return]; falling out
    of the loop reaches the final [return "", errors.New(...)]. *)
Fixpoint detectTargetLang_range (env : gmap string string) (vars : list string)
  : string * option error :=
  match vars with
  | [] => ("", Some errCannotDetect)
  | v :: rest =>
      let code := langCodeFromLocale (Getenv env v) in
      if negb (String.eqb code "") then (code, None)
      else detectTargetLang_range env rest
  end.

Definition detectTargetLang (env : gmap string string) : string * option error :=
  let code := Getenv env "GOOGLE_TRANSLATE_LANG" in
  if negb (String.eqb code "") then (code, None)
  else detectTargetLang_range env ["LANGUAGE"; "LC_ALL"; "LANG"].

(** ** Package [net/url]: [QueryEscape] *)

Module url.

Definition upperhex : string := "0123456789ABCDEF".

(** [upperhex[n]] for [n < 16] *)
Definition hexdigit (n : N) : ascii :=
  match String.get (N.to_nat n) upperhex with
  | Some d => d
  | None => "0"%char
  end.

Definition between (lo c hi : ascii) : bool :=
  (N_of_ascii lo <=? N_of_ascii c)%N && (N_of_ascii c <=? N_of_ascii hi)%N.

(** [shouldEscape(c, encodeQueryComponent)]: letters, digits and the
    marks [-], [_], [.], [~] are kept; the reserved characters and
    everything else are escaped. *)
Definition shouldEscape (c : ascii) : bool :=
  if between "a" c "z" || between "A" c "Z" || between "0" c "9" then false
  else if Ascii.eqb c "-" || Ascii.eqb c "_" || Ascii.eqb c "." || Ascii.eqb c "~"
  then false
  else true.

(** [escape(s, encodeQueryComponent)]: a space becomes [+], an escaped
    byte [c] becomes [%] followed by [upperhex[c>>4]] and
    [upperhex[c&15]]. *)
Fixpoint QueryEscape (s : string) : string :=
  match s with
  | "" => ""
  | String c s' =>
      if Ascii.eqb c " " then String "+" (QueryEscape s')
      else if shouldEscape c then
        String "%" (String (hexdigit (N.shiftr (N_of_ascii c) 4))
                   (String (hexdigit (N.land (N_of_ascii c) 15))
                      (QueryEscape s')))
      else String c (QueryEscape s')
  end.

End url.

(** ** The collaborators *)

(** [*http.Client]: which credential it carries.  [nil] is [None]. *)
Inductive HttpClient : Type :=
| APIKeyClient (apiKey : string)
| OAuthClient (accessToken : string).

(** [*translate.Service], built over an HTTP client. *)
Record Service : Type := mkService { svc_client : option HttpClient }.

Record TranslationsResource : Type :=
  { DetectedSourceLanguage : string; TranslatedText : string }.
Record TranslationsListResponse : Type :=
  { Translations : list TranslationsResource }.

Record DetectionsResourceItem : Type := { Language : string }.
Record DetectionsListResponse : Type :=
  { Detections : list (list DetectionsResourceItem) }.

(** [srv.Translations.List(q, target)] and [call.Format(format)] *)
Record TranslationsListCall : Type :=
  { tl_srv : Service; tl_q : list string; tl_target : string; tl_format : string }.

Definition Translations_List (srv : Service) (q : list string) (target : string)
  : TranslationsListCall :=
  {| tl_srv := srv; tl_q := q; tl_target := target; tl_format := "" |}.

Definition Format (c : TranslationsListCall) (format : string) : TranslationsListCall :=
  {| tl_srv := tl_srv c; tl_q := tl_q c; tl_target := tl_target c; tl_format := format |}.

(** [srv.Detections.List(q)] *)
Record DetectionsListCall : Type :=
  { dl_srv : Service; dl_q : list string }.

Definition Detections_List (srv : Service) (q : list string) : DetectionsListCall :=
  {| dl_srv := srv; dl_q := q |}.

(** [io.Reader], as far as [ioutil.ReadAll] observes it. *)
Record Reader : Type := { contents : string; read_err : option error }.

(** What the outside answers during one invocation. *)
Record World : Type :=
  { environ : gmap string string;
    flag_Args : list string;
    ghttp_NewClient : string -> option error;
    translate_New : option HttpClient -> option error;
    Translations_Do : TranslationsListCall -> TranslationsListResponse + error;
    Detections_Do : DetectionsListCall -> DetectionsListResponse + error;
    openbrowser_Start : string -> option error }.

(** Calls that leave the process, in the order they happen. *)
Inductive event : Type :=
| EvReadAll
| EvNewAPIKeyClient (apiKey : string)
| EvNewOAuthClient (accessToken : string)
| EvNewService (client : option HttpClient)
| EvDetect (c : DetectionsListCall)
| EvTranslate (c : TranslationsListCall)
| EvOpenBrowser (u : string)
| EvWrite (s : string).

(** ** Statements and function calls

    The program only ever adds to the record of its calls, so a computation
    is its outcome paired with the events it produced, in order.  A function
    call either returns or panics.  Inside a body, a statement either goes on
    to the next statement with a value, leaves the function through
    [return], or panics. *)

Inductive result (R : Type) : Type :=
| Returned (r : R)
| Panicked.
Arguments Returned {R} r.
Arguments Panicked {R}.

Definition Fn (R : Type) : Type := result R * list event.

Inductive flow (R A : Type) : Type :=
| Next (a : A)
| Return (r : R)
| Panic.
Arguments Next {R A} a.
Arguments Return {R A} r.
Arguments Panic {R A}.

Definition Stmt (R A : Type) : Type := flow R A * list event.

Definition pure {R A} (a : A) : Stmt R A := (Next a, []).

Definition return_ {R A} (r : R) : Stmt R A := (Return r, []).

Definition panic {R A} : Stmt R A := (Panic, []).

(** [m] and then [k]: the events of [k] follow those of [m]. *)
Definition bind {R A B} (m : Stmt R A) (k : A -> Stmt R B) : Stmt R B :=
  match m with
  | (Next a, es) => let (f, es') := k a in (f, (es ++ es')%list)
  | (Return r, es) => (Return r, es)
  | (Panic, es) => (Panic, es)
  end.

Notation "'do' x <- m ;; k" := (bind m (fun x => k))
  (at level 10, x pattern, m at level 99, k at level 200).
Notation "'run' m ;; k" := (bind m (fun _ => k))
  (at level 10, m at level 99, k at level 200).

(** [if c { body }] where [body] ends in a [return]. *)
Definition when {R} (c : bool) (body : Stmt R unit) : Stmt R unit :=
  if c then body else pure tt.

(** A function body run as a call. *)
Definition func {R} (body : Stmt R R) : Fn R :=
  match body with
  | (Next r, es) | (Return r, es) => (Returned r, es)
  | (Panic, es) => (Panicked, es)
  end.

(** A call used as a statement of the caller. *)
Definition call {R A} (f : Fn A) : Stmt R A :=
  match f with
  | (Returned a, es) => (Next a, es)
  | (Panicked, es) => (Panic, es)
  end.

(** A call to a collaborator: it is recorded and answers [a]. *)
Definition extern {A} (e : event) (a : A) : Fn A := (Returned a, [e]).

(** The index expression [l[0]]; out of range is a run-time panic. *)
Definition first {R A} (l : list A) : Stmt R A :=
  match l with
  | x :: _ => pure x
  | [] => panic
  end.

Definition is_nil {A} (o : option A) : bool :=
  match o with None => true | Some _ => false end.

Definition nonempty (s : string) : bool := negb (String.eqb s "").

(** ** Translation Client: [Gtrans] (gtrans.go:73-94) *)

Record Gtrans : Type := { srv : Service }.

Definition call_Do_Translations (W : World) (c : TranslationsListCall)
  : Fn (option TranslationsListResponse * option error) :=
  extern (EvTranslate c)
    match Translations_Do W c with
    | inl resp => (Some resp, None)
    | inr err => (None, Some err)
    end.

Definition call_Do_Detections (W : World) (c : DetectionsListCall)
  : Fn (option DetectionsListResponse * option error) :=
  extern (EvDetect c)
    match Detections_Do W c with
    | inl resp => (Some resp, None)
    | inr err => (None, Some err)
    end.

(** Dereferencing the response pointer. *)
Definition deref {R A} (p : option A) : Stmt R A :=
  match p with Some a => pure a | None => panic end.

Definition Translate (W : World) (gtrans : Gtrans) (text target : string)
  : Fn (string * option error) :=
  func (
    let c := Translations_List (srv gtrans) [text] target in
    let c := Format c "text" in
    do (resp, err) <- call (call_Do_Translations W c) ;;
    match err with
    | Some err => return_ ("", Some (fmt_Errorf_v "fail to call translate API: " err))
    | None =>
        do resp <- deref resp ;;
        do t0 <- first (Translations resp) ;;
        return_ (TranslatedText t0, None)
    end).

Definition Detect (W : World) (gtrans : Gtrans) (text : string)
  : Fn (string * option error) :=
  func (
    let c := Detections_List (srv gtrans) [text] in
    do (resp, err) <- call (call_Do_Detections W c) ;;
    match err with
    | Some err => return_ ("", Some (fmt_Errorf_v "fail to call detection API: " err))
    | None =>
        do resp <- deref resp ;;
        do d0 <- first (Detections resp) ;;
        do d00 <- first d0 ;;
        return_ (Language d00, None)
    end).

(** ** Browser mode: [openGoogleTranslate] (gtrans.go:121-124) *)

Definition openGoogleTranslate (W : World) (targetLang text : string)
  : Fn (option error) :=
  func (
    let u := "https://translate.google.com/#auto/" +:+ targetLang +:+ "/"
             +:+ url.QueryEscape text in
    do err <- call (extern (EvOpenBrowser u) (openbrowser_Start W u)) ;;
    return_ err).

(** ** Translation mode: [runTranslation] (gtrans.go:126-181) *)

Definition errNoCredential : error :=
  errors_New "neither GOOGLE_TRANSLATE_API_KEY nor GOOGLE_TRANSLATE_ACCESS_TOKEN is not set".

Definition ghttpClient (W : World) (apiKey : string)
  : Fn (option HttpClient * option error) :=
  extern (EvNewAPIKeyClient apiKey)
    match ghttp_NewClient W apiKey with
    | None => (Some (APIKeyClient apiKey), None)
    | Some err => (None, Some err)
    end.

Definition oauthClient (accessToken : string) : Fn (option HttpClient) :=
  extern (EvNewOAuthClient accessToken) (Some (OAuthClient accessToken)).

(** [translate.New(client)] *)
Definition call_translate_New (W : World) (client : option HttpClient)
  : Fn (option Service * option error) :=
  extern (EvNewService client)
    match translate_New W client with
    | None => (Some (mkService client), None)
    | Some err => (None, Some err)
    end.

Definition runTranslation (W : World) (targetLang text : string) : Fn (option error) :=
  func (
    let client : option HttpClient := None in
    let apiKey := Getenv (environ W) "GOOGLE_TRANSLATE_API_KEY" in
    let accessToken := Getenv (environ W) "GOOGLE_TRANSLATE_ACCESS_TOKEN" in
    run when (String.eqb apiKey "" && String.eqb accessToken "")
          (return_ (Some errNoCredential)) ;;
    do client <- (if nonempty apiKey then
                    do (client, err) <- call (ghttpClient W apiKey) ;;
                    run when (negb (is_nil err)) (return_ err) ;;
                    pure client
                  else pure client) ;;
    do client <- (if nonempty accessToken then call (oauthClient accessToken)
                  else pure client) ;;
    do (service, err) <- call (call_translate_New W client) ;;
    run when (negb (is_nil err)) (return_ err) ;;
    do service <- deref service ;;
    let gtrans := {| srv := service |} in
    let sec := Getenv (environ W) "GOOGLE_TRANSLATE_SECOND_LANG" in
    do targetLang <- (if nonempty sec then
                        do (detectedSourceLang, err) <- call (Detect W gtrans text) ;;
                        run when (negb (is_nil err)) (return_ err) ;;
                        if String.eqb detectedSourceLang targetLang then pure sec
                        else pure targetLang
                      else pure targetLang) ;;
    do (translatedText, err) <- call (Translate W gtrans text targetLang) ;;
    run when (negb (is_nil err)) (return_ err) ;;
    run call (extern (EvWrite (translatedText +:+ String "010" "")) tt) ;;
    return_ None).

(** ** [Main] (gtrans.go:96-118) *)

(** Lines 97-103: the target language in force after the flag. *)
Definition Main_targetLang (W : World) (targetLang : string)
  : Stmt (option error) string :=
  if String.eqb targetLang "" then
    let '(targetLang, err) := detectTargetLang (environ W) in
    run when (negb (is_nil err)) (return_ err) ;;
    pure targetLang
  else pure targetLang.

Definition ioutil_ReadAll (r : Reader) : Fn (string * option error) :=
  extern EvReadAll (contents r, read_err r).

(** Lines 105-112: the input text. *)
Definition Main_text (W : World) (r : Reader) : Stmt (option error) string :=
  let text := gostrings.Join (flag_Args W) " " in
  if String.eqb text "" then
    do (b, err) <- call (ioutil_ReadAll r) ;;
    run when (negb (is_nil err)) (return_ err) ;;
    pure b
  else pure text.

(** Lines 114-117: the two modes. *)
Definition Main_dispatch (W : World) (targetLang text : string) (doOpenBrowser : bool)
  : Stmt (option error) (option error) :=
  if doOpenBrowser then
    do err <- call (openGoogleTranslate W targetLang text) ;;
    return_ err
  else
    do err <- call (runTranslation W targetLang text) ;;
    return_ err.

Definition Main (W : World) (r : Reader) (targetLang : string) (doOpenBrowser : bool)
  : Fn (option error) :=
  func (
    do targetLang <- Main_targetLang W targetLang ;;
    do text <- Main_text W r ;;
    Main_dispatch W targetLang text doOpenBrowser).

(** ** [main] (gtrans.go:64-71)

    [flag.Parse] has run: [targetLang] and [doOpenBrowser] are the values it
    left in the package variables, and [flag_Args] the remaining arguments.
    [Main] gets the process's standard input and standard output.  The
    result is the exit status: [os.Exit(1)] after printing the error with
    [fmt.Println], which writes to standard output too, and 0 when [main]
    returns. *)
Definition main (W : World) (r : Reader) (targetLang : string) (doOpenBrowser : bool)
  : Fn Z :=
  func (
    do err <- call (Main W r targetLang doOpenBrowser) ;;
    match err with
    | Some err =>
        run call (extern (EvWrite (Error err +:+ String "010" "")) tt) ;;
        return_ 1
    | None => return_ 0
    end).

(** * Vocabulary of the properties *)

(** [s] starts with [p]. *)
Definition starts_with (s p : string) : Prop := exists rest, s = p +:+ rest.

(** The byte [c] occurs in [s]; [has_byteb] decides it. *)
Definition has_byte (c : ascii) (s : string) : Prop :=
  exists pre post, s = pre +:+ String c post.

Fixpoint has_byteb (c : ascii) (s : string) : bool :=
  match s with
  | "" => false
  | String a s' => Ascii.eqb a c || has_byteb c s'
  end.

(** The target language as the specification words it: the flag if
    non-empty, else [GOOGLE_TRANSLATE_LANG] if non-empty, else the first
    non-empty resolution of [LANGUAGE], [LC_ALL], [LANG]. *)
Definition selected_target_spec (env : gmap string string) (flag : string)
  : option string :=
  if nonempty flag then Some flag
  else if nonempty (Getenv env "GOOGLE_TRANSLATE_LANG")
       then Some (Getenv env "GOOGLE_TRANSLATE_LANG")
       else List.find nonempty
              (List.map (fun v => langCodeFromLocale (Getenv env v))
                 ["LANGUAGE"; "LC_ALL"; "LANG"]).

(** [sub] occurs in [s]. *)
Definition contains (s sub : string) : Prop :=
  exists pre post, s = pre +:+ sub +:+ post.

(** The call [f] made after the events [es]. *)
Definition after {R} (es : list event) (f : Fn R) : Fn R :=
  (fst f, (es ++ snd f)%list).

(** Projections of a trace. *)
Definition detect_calls (tr : list event) : list DetectionsListCall :=
  List.flat_map (fun e => match e with EvDetect c => [c] | _ => [] end) tr.

Definition translate_calls (tr : list event) : list TranslationsListCall :=
  List.flat_map (fun e => match e with EvTranslate c => [c] | _ => [] end) tr.

Definition services_built (tr : list event) : list (option HttpClient) :=
  List.flat_map (fun e => match e with EvNewService c => [c] | _ => [] end) tr.

Definition browser_opens (tr : list event) : list string :=
  List.flat_map (fun e => match e with EvOpenBrowser u => [u] | _ => [] end) tr.

(** Client construction, service construction, detection and translation
    are the calls that can reach the network. *)
Definition is_network (e : event) : bool :=
  match e with
  | EvNewAPIKeyClient _ | EvNewOAuthClient _ | EvNewService _
  | EvDetect _ | EvTranslate _ => true
  | EvReadAll | EvOpenBrowser _ | EvWrite _ => false
  end.

Definition network_calls (tr : list event) : list event := List.filter is_network tr.

(** What a run writes to standard output, piece by piece and as one text. *)
Definition writes (tr : list event) : list string :=
  List.flat_map (fun e => match e with EvWrite s => [s] | _ => [] end) tr.

Definition stdout (tr : list event) : string := String.concat "" (writes tr).

(** The place of a call in a run: reading the input, the two client
    constructions, the service, detection, translation, the output, the
    browser. *)
Definition phase (e : event) : nat :=
  match e with
  | EvReadAll => 0
  | EvNewAPIKeyClient _ => 1
  | EvNewOAuthClient _ => 2
  | EvNewService _ => 3
  | EvDetect _ => 4
  | EvTranslate _ => 5
  | EvWrite _ => 6
  | EvOpenBrowser _ => 7
  end.

(** A line: the text followed by a newline. *)
Definition line (s : string) : string := s +:+ String "010" "".

(** Every byte of [s] satisfies [p]. *)
Fixpoint all_bytes (p : ascii -> bool) (s : string) : bool :=
  match s with
  | "" => true
  | String c s' => p c && all_bytes p s'
  end.

(** The bytes an escaped text is made of: letters, digits, the four marks,
    the plus sign and the percent sign. *)
Definition url_safe (c : ascii) : bool :=
  url.between "a" c "z" || url.between "A" c "Z" || url.between "0" c "9"
  || Ascii.eqb c "-" || Ascii.eqb c "_" || Ascii.eqb c "." || Ascii.eqb c "~"
  || Ascii.eqb c "+" || Ascii.eqb c "%".

(** Reading an escaped text back, used to show that escaping loses
    nothing: a plus sign is a space, a percent sign with two hexadecimal
    digits is the byte they denote. *)
Definition unhex (c : ascii) : N :=
  if url.between "0" c "9" then N_of_ascii c - 48
  else if url.between "A" c "F" then N_of_ascii c - 55
  else 0.

Fixpoint unescape (s : string) : string :=
  match s with
  | "" => ""
  | String c s1 =>
      if Ascii.eqb c "+" then String " " (unescape s1)
      else if Ascii.eqb c "%" then
        match s1 with
        | String h (String l s3) =>
            String (ascii_of_N (16 * unhex h + unhex l)) (unescape s3)
        | _ => ""
        end
      else String c (unescape s1)
  end.

(** ** Sample invocations *)

Module Sample.

(** A world in which every collaborator succeeds: detection answers
    [detected], translation answers the target language it was asked for. *)
Definition world (env : list (string * string)) (args : list string)
    (detected : string) : World :=
  {| environ := list_to_map env;
     flag_Args := args;
     ghttp_NewClient := fun _ => None;
     translate_New := fun _ => None;
     Translations_Do := fun c =>
       inl {| Translations :=
               [ {| DetectedSourceLanguage := detected;
                    TranslatedText := "to " +:+ tl_target c |} ] |};
     Detections_Do := fun _ =>
       inl {| Detections := [ [ {| Language := detected |} ] ] |};
     openbrowser_Start := fun _ => None |}.

(** A world whose remote API fails every call. *)
Definition failing_world (env : list (string * string)) (args : list string)
  : World :=
  {| environ := list_to_map env;
     flag_Args := args;
     ghttp_NewClient := fun _ => None;
     translate_New := fun _ => None;
     Translations_Do := fun _ => inr (errors_New "googleapi: Error 403");
     Detections_Do := fun _ => inr (errors_New "googleapi: Error 403");
     openbrowser_Start := fun _ => None |}.

(** A world whose remote API answers every call with nothing in it. *)
Definition hollow_world (env : list (string * string)) (args : list string)
  : World :=
  {| environ := list_to_map env;
     flag_Args := args;
     ghttp_NewClient := fun _ => None;
     translate_New := fun _ => None;
     Translations_Do := fun _ => inl {| Translations := [] |};
     Detections_Do := fun _ => inl {| Detections := [] |};
     openbrowser_Start := fun _ => None |}.

Definition stdin (s : string) : Reader := {| contents := s; read_err := None |}.

Definition broken_stdin : Reader :=
  {| contents := ""; read_err := Some (errors_New "read /dev/stdin: bad file descriptor") |}.

Definition gtrans : Gtrans := {| srv := mkService (Some (APIKeyClient "k")) |}.

End Sample.

(** * Properties *)

(** ** Strings *)

Section StringFacts.

Import gostrings.

Lemma first_n_0 (s : string) : first_n 0 s = "".
Proof. destruct s; reflexivity. Qed.

Lemma first_n_app (p rest : string) : first_n (String.length p) (p +:+ rest) = p.
Proof.
  induction p as [|a p IH]; simpl.
  - now destruct rest.
  - now rewrite IH.
Qed.

Lemma length_app (p rest : string) :
  String.length (p +:+ rest) = (String.length p + String.length rest)%nat.
Proof. induction p as [|a p IH]; simpl; [reflexivity | now rewrite IH]. Qed.

Lemma HasPrefix_empty s : HasPrefix s "" = true.
Proof.
  unfold HasPrefix, len. simpl String.length. rewrite first_n_0.
  apply andb_true_intro; split; [apply Z.leb_le; lia | reflexivity].
Qed.

Lemma HasPrefix_nil a p : HasPrefix "" (String a p) = false.
Proof.
  unfold HasPrefix, len. simpl String.length.
  replace (Z.of_nat (S (String.length p)) <=? Z.of_nat 0) with false; [reflexivity|].
  symmetry. apply Z.leb_gt. lia.
Qed.

Lemma HasPrefix_cons b s a p :
  HasPrefix (String b s) (String a p) = Ascii.eqb b a && HasPrefix s p.
Proof.
  unfold HasPrefix, len. cbn [String.length first_n String.eqb].
  assert ((Z.of_nat (S (String.length p)) <=? Z.of_nat (S (String.length s)))
          = (Z.of_nat (String.length p) <=? Z.of_nat (String.length s))) as ->.
  { apply eq_true_iff_eq. rewrite !Z.leb_le. lia. }
  destruct (Z.of_nat (String.length p) <=? Z.of_nat (String.length s));
    destruct (Ascii.eqb b a); reflexivity.
Qed.

Lemma HasPrefix_spec s p : HasPrefix s p = true <-> starts_with s p.
Proof.
  revert s. induction p as [|a p IH]; intros s.
  - split; [intros _; now exists s | intros _; apply HasPrefix_empty].
  - destruct s as [|b s].
    + rewrite HasPrefix_nil. split; [discriminate | intros [rest H]; discriminate].
    + rewrite HasPrefix_cons, andb_true_iff, Ascii.eqb_eq, IH. split.
      * intros [-> [rest ->]]. now exists rest.
      * intros [rest H]. simpl in H. injection H as -> ->. split; [reflexivity | now exists rest].
Qed.

Lemma HasPrefix_false s p : HasPrefix s p = false <-> ~ starts_with s p.
Proof.
  rewrite <- HasPrefix_spec. destruct (HasPrefix s p); split; intros H; congruence.
Qed.

Lemma has_byte_nil c : ~ has_byte c "".
Proof. intros [[|a pre] [post H]]; discriminate. Qed.

Lemma has_byte_cons c a s : has_byte c (String a s) <-> a = c \/ has_byte c s.
Proof.
  split.
  - intros [[|b pre] [post H]]; simpl in H; injection H as -> ->.
    + now left.
    + right. now exists pre, post.
  - intros [-> | [pre [post ->]]].
    + now exists "", s.
    + now exists (String a pre), post.
Qed.

(** What [Index(s, "_")] computes: [-1] when [s] has no underscore,
    else the length of the part before the first one. *)
Lemma index_from_underscore s i :
  (index_from s "_" i = -1 /\ ~ has_byte "_" s) \/
  (exists pre post,
      s = pre +:+ String "_" post /\ ~ has_byte "_" pre /\
      index_from s "_" i = i + len pre).
Proof.
  revert i. induction s as [|a s IH]; intros i.
  - left. split; [reflexivity | apply has_byte_nil].
  - cbn [index_from]. rewrite HasPrefix_cons, HasPrefix_empty, andb_true_r.
    destruct (Ascii.eqb_spec a "_") as [-> | Hne].
    + right. exists "", s. split; [reflexivity|]. split; [apply has_byte_nil|].
      unfold len. simpl. lia.
    + destruct (IH (i + 1)) as [[E Hno] | (pre & post & -> & Hno & E)].
      * left. split; [exact E|]. rewrite has_byte_cons. tauto.
      * right. exists (String a pre), post. split; [reflexivity|].
        split; [rewrite has_byte_cons; tauto|].
        rewrite E. unfold len. simpl String.length. lia.
Qed.

(** The split of a string at its first underscore is unique. *)
Lemma first_split_unique c pre post pre' post' :
  pre +:+ String c post = pre' +:+ String c post' ->
  ~ has_byte c pre -> ~ has_byte c pre' -> pre = pre'.
Proof.
  revert pre'. induction pre as [|a pre IH]; intros [|a' pre'] H Hn Hn'; simpl in H.
  - reflexivity.
  - injection H as <- _. exfalso. apply Hn'. apply has_byte_cons. now left.
  - injection H as -> _. exfalso. apply Hn. apply has_byte_cons. now left.
  - injection H as -> H. f_equal. apply (IH pre' H).
    + intros Hb. apply Hn. apply has_byte_cons. now right.
    + intros Hb. apply Hn'. apply has_byte_cons. now right.
Qed.

(** The slice [locale[:i]] of [langCodeFromLocale] is in range. *)
Lemma Index_underscore_in_range s :
  Index s "_" = -1 \/ 0 <= Index s "_" < len s.
Proof.
  unfold Index.
  destruct (index_from_underscore s 0) as [[E _] | (pre & post & -> & _ & E)].
  - now left.
  - right. rewrite E. unfold len. rewrite length_app. simpl String.length. lia.
Qed.

(** The resolver on a string that is none of the four Chinese locales. *)
Lemma langCodeFromLocale_other locale :
  ~ starts_with locale "zh_CN" -> ~ starts_with locale "zh_SG" ->
  ~ starts_with locale "zh_TW" -> ~ starts_with locale "zh_HK" ->
  (~ has_byte "_" locale /\ langCodeFromLocale locale = "") \/
  (exists pre post,
      locale = pre +:+ String "_" post /\ ~ has_byte "_" pre /\
      langCodeFromLocale locale = pre).
Proof.
  intros H1 H2 H3 H4. unfold langCodeFromLocale.
  apply HasPrefix_false in H1, H2, H3, H4. rewrite H1, H2, H3, H4. simpl.
  unfold Index.
  destruct (index_from_underscore locale 0) as [[E Hno] | (pre & post & -> & Hno & E)].
  - left. rewrite E. now split.
  - right. exists pre, post. split; [reflexivity|]. split; [exact Hno|].
    rewrite E. replace (0 + len pre =? -1) with false
      by (symmetry; apply Z.eqb_neq; unfold len; lia).
    unfold slice_to, len. rewrite Z.add_0_l, Nat2Z.id. apply first_n_app.
Qed.

End StringFacts.

(** ** Locale Resolver *)

Lemma has_byteb_spec c s : has_byteb c s = true <-> has_byte c s.
Proof.
  induction s as [|a s IH]; simpl.
  - split; [discriminate | intros H; now apply has_byte_nil in H].
  - rewrite has_byte_cons, orb_true_iff, Ascii.eqb_eq, IH. reflexivity.
Qed.

Lemma has_byteb_false c s : has_byteb c s = false -> ~ has_byte c s.
Proof. rewrite <- has_byteb_spec. congruence. Qed.

Lemma not_starts_with s p : gostrings.HasPrefix s p = false -> ~ starts_with s p.
Proof. apply HasPrefix_false. Qed.

(** C3. The Locale Resolver returns "zh-CN" for a string that starts with
    "zh_CN" or "zh_SG"; else "zh-TW" for one that starts with "zh_TW" or
    "zh_HK"; else the part of the string before its first underscore; else,
    when there is no underscore (the empty string included), the empty
    string.  So en_US.UTF-8 resolves to en, zh_HK.Big5 to zh-TW, and fr and
    the empty string to the empty string. *)
Theorem C3_locale_resolver (locale : string) :
  let zhCN := starts_with locale "zh_CN" \/ starts_with locale "zh_SG" in
  let zhTW := starts_with locale "zh_TW" \/ starts_with locale "zh_HK" in
  (zhCN -> langCodeFromLocale locale = "zh-CN") /\
  (~ zhCN -> zhTW -> langCodeFromLocale locale = "zh-TW") /\
  (~ zhCN -> ~ zhTW ->
   forall pre post, locale = pre +:+ "_" +:+ post -> ~ has_byte "_" pre ->
                    langCodeFromLocale locale = pre) /\
  (~ zhCN -> ~ zhTW -> ~ has_byte "_" locale -> langCodeFromLocale locale = "") /\
  langCodeFromLocale "en_US.UTF-8" = "en" /\
  langCodeFromLocale "zh_HK.Big5" = "zh-TW" /\
  langCodeFromLocale "fr" = "" /\
  langCodeFromLocale "" = "".
Proof.
  cbv zeta. unfold langCodeFromLocale at 1 2.
  destruct (gostrings.HasPrefix locale "zh_CN") eqn:E1;
    [apply HasPrefix_spec in E1 | apply HasPrefix_false in E1];
  (destruct (gostrings.HasPrefix locale "zh_SG") eqn:E2;
    [apply HasPrefix_spec in E2 | apply HasPrefix_false in E2]);
  (destruct (gostrings.HasPrefix locale "zh_TW") eqn:E3;
    [apply HasPrefix_spec in E3 | apply HasPrefix_false in E3]);
  (destruct (gostrings.HasPrefix locale "zh_HK") eqn:E4;
    [apply HasPrefix_spec in E4 | apply HasPrefix_false in E4]);
  cbn [orb];
  repeat match goal with |- _ /\ _ => split end;
  try reflexivity; try tauto.
  - (* before the first underscore *)
    intros _ _ pre post Hsplit Hpre.
    destruct (langCodeFromLocale_other locale E1 E2 E3 E4)
      as [[Hno _] | (pre' & post' & Hsplit' & Hpre' & ->)].
    + exfalso. apply Hno. now exists pre, post.
    + symmetry. eapply first_split_unique; [|exact Hpre|exact Hpre'].
      rewrite <- Hsplit'. symmetry. exact Hsplit.
  - (* no underscore *)
    intros _ _ Hno.
    destruct (langCodeFromLocale_other locale E1 E2 E3 E4)
      as [[_ E] | (pre' & post' & Hsplit' & _ & _)]; [exact E|].
    exfalso. apply Hno. now exists pre', post'.
Qed.

(** C3 at [ja_JP.UTF-8], none of the Chinese locales, split at its first
    underscore. *)
Lemma C3_locale_resolver_witness : langCodeFromLocale "ja_JP.UTF-8" = "ja".
Proof.
  refine (proj1 (proj2 (proj2 (C3_locale_resolver "ja_JP.UTF-8"))) _ _ "ja" "JP.UTF-8" _ _).
  - intros [H | H]; revert H; apply not_starts_with; reflexivity.
  - intros [H | H]; revert H; apply not_starts_with; reflexivity.
  - reflexivity.
  - apply has_byteb_false. reflexivity.
Defined.

(** C9. The Locale Resolver's result never contains an underscore: it is
    "zh-CN", "zh-TW", a non-empty prefix of the input that ends just before
    the input's first underscore, or the empty string. *)
Theorem C9_resolver_result_shape (locale : string) :
  ~ has_byte "_" (langCodeFromLocale locale) /\
  (langCodeFromLocale locale = "zh-CN" \/
   langCodeFromLocale locale = "zh-TW" \/
   (langCodeFromLocale locale <> "" /\
    exists post, locale = langCodeFromLocale locale +:+ "_" +:+ post) \/
   langCodeFromLocale locale = "").
Proof.
  destruct (gostrings.HasPrefix locale "zh_CN" || gostrings.HasPrefix locale "zh_SG") eqn:E1.
  { unfold langCodeFromLocale. rewrite E1.
    split; [apply has_byteb_false; reflexivity | now left]. }
  destruct (gostrings.HasPrefix locale "zh_TW" || gostrings.HasPrefix locale "zh_HK") eqn:E2.
  { unfold langCodeFromLocale. rewrite E1, E2.
    split; [apply has_byteb_false; reflexivity | now right; left]. }
  apply orb_false_elim in E1 as [E1 E1'], E2 as [E2 E2'].
  apply HasPrefix_false in E1, E1', E2, E2'.
  destruct (langCodeFromLocale_other locale E1 E1' E2 E2')
    as [[_ ->] | (pre & post & Hsplit & Hpre & ->)].
  - split; [apply has_byte_nil | now do 3 right].
  - split; [exact Hpre|].
    destruct pre as [|a pre]; [now do 3 right|].
    right; right; left. split; [discriminate | now exists post].
Qed.

(** ** The statements *)

Lemma bind_pure {R A B} (a : A) (k : A -> Stmt R B) : bind (pure a) k = k a.
Proof. unfold bind, pure. now destruct (k a). Qed.

Lemma bind_return {R A B} (r : R) (k : A -> Stmt R B) :
  bind (return_ r) k = return_ r.
Proof. reflexivity. Qed.

Lemma func_return {R} (r : R) : func (return_ r) = (Returned r, []).
Proof. reflexivity. Qed.

Lemma func_call_return {R} (f : Fn R) : func (do r <- call f ;; return_ r) = f.
Proof.
  destruct f as [[r|] es]; unfold func, bind, call, return_; simpl;
    now rewrite ?app_nil_r.
Qed.

Lemma func_bind_next {R A} (m : Stmt R A) (k : A -> Stmt R R) a es :
  m = (Next a, es) -> func (bind m k) = after es (func (k a)).
Proof.
  intros ->. unfold func, bind, after. now destruct (k a) as [[r | r |] es'].
Qed.

Lemma after_nil {R} (f : Fn R) : after [] f = f.
Proof. now destruct f. Qed.

(** ** The prelude of [Main] *)

Lemma Main_targetLang_spec W flag :
  Main_targetLang W flag =
    match selected_target_spec (environ W) flag with
    | Some lang => pure lang
    | None => return_ (Some errCannotDetect)
    end.
Proof.
  unfold Main_targetLang, selected_target_spec, detectTargetLang, nonempty.
  destruct (String.eqb flag ""); cbn [negb]; [|reflexivity].
  destruct (String.eqb (Getenv (environ W) "GOOGLE_TRANSLATE_LANG") "");
    cbn [negb]; [|reflexivity].
  cbn [detectTargetLang_range List.map List.find].
  repeat (destruct (String.eqb (langCodeFromLocale _) ""); cbn [negb]; [|reflexivity]).
  reflexivity.
Qed.

Lemma Main_after_target W r flag open :
  Main W r flag open =
    match selected_target_spec (environ W) flag with
    | Some lang => func (do text <- Main_text W r ;; Main_dispatch W lang text open)
    | None => (Returned (Some errCannotDetect), [])
    end.
Proof.
  unfold Main. rewrite Main_targetLang_spec.
  destruct (selected_target_spec (environ W) flag).
  - now rewrite bind_pure.
  - reflexivity.
Qed.

Lemma Main_text_spec W r :
  Main_text W r =
    if String.eqb (gostrings.Join (flag_Args W) " ") "" then
      match read_err r with
      | None => (Next (contents r), [EvReadAll])
      | Some e => (Return (Some e), [EvReadAll])
      end
    else (Next (gostrings.Join (flag_Args W) " "), []).
Proof.
  unfold Main_text. destruct (String.eqb _ ""); [|reflexivity].
  unfold bind, call, ioutil_ReadAll, extern. destruct (read_err r); reflexivity.
Qed.

Lemma Join_empty args :
  gostrings.Join args " " = "" <-> args = [] \/ args = [""].
Proof.
  destruct args as [|a [|b rest]].
  - simpl. tauto.
  - simpl. split; [intros ->; now right | intros [H | H]; congruence].
  - split.
    + intros H. exfalso. revert H. cbn [gostrings.Join].
      destruct a; discriminate.
    + intros [H | H]; discriminate.
Qed.

Lemma Main_dispatch_spec W lang text open :
  func (Main_dispatch W lang text open) =
    if open then openGoogleTranslate W lang text
    else runTranslation W lang text.
Proof. unfold Main_dispatch. destruct open; apply func_call_return. Qed.

Lemma Main_with_target W r flag open lang :
  selected_target_spec (environ W) flag = Some lang ->
  Main W r flag open =
    match Main_text W r with
    | (Next text, es) => after es (func (Main_dispatch W lang text open))
    | (Return e, es) => (Returned e, es)
    | (Panic, es) => (Panicked, es)
    end.
Proof.
  intros Hsel. rewrite Main_after_target, Hsel.
  pose proof (func_bind_next (Main_text W r)
                (fun text => Main_dispatch W lang text open)) as Hnext.
  destruct (Main_text W r) as [[text | e |] es]; [|reflexivity..].
  now apply Hnext.
Qed.

(** With the target language and the text in hand, [Main] is the mode's
    function. *)
Lemma Main_run W r flag open lang text es :
  selected_target_spec (environ W) flag = Some lang ->
  Main_text W r = (Next text, es) ->
  Main W r flag open =
    after es (if open then openGoogleTranslate W lang text
              else runTranslation W lang text).
Proof.
  intros Hlang Htext.
  now rewrite (Main_with_target _ _ _ _ _ Hlang), Htext, Main_dispatch_spec.
Qed.

(** The text step only ever reads standard input. *)
Lemma Main_text_events W r :
  snd (Main_text W r) = [] \/ snd (Main_text W r) = [EvReadAll].
Proof.
  rewrite Main_text_spec. destruct (String.eqb _ ""); [|now left].
  right. now destruct (read_err r).
Qed.

(** Browser mode makes one call, to the browser. *)
Lemma openGoogleTranslate_spec W targetLang text :
  openGoogleTranslate W targetLang text =
    let u := "https://translate.google.com/#auto/" +:+ targetLang +:+ "/"
             +:+ url.QueryEscape text in
    (Returned (openbrowser_Start W u), [EvOpenBrowser u]).
Proof. reflexivity. Qed.

(** ** Target Language Selector *)

(** C4. The selected target language is the -to flag value if non-empty;
    otherwise GOOGLE_TRANSLATE_LANG if non-empty; otherwise the first
    non-empty result of the Locale Resolver on LANGUAGE, LC_ALL, LANG in
    that order; when all of these yield nothing, the run fails with the
    "cannot detect language" error, which names the two variables to
    export, $LANG and $GOOGLE_TRANSLATE_LANG. *)
Theorem C4_target_language_selection W r flag open :
  Main W r flag open =
    match selected_target_spec (environ W) flag with
    | Some lang => func (do text <- Main_text W r ;; Main_dispatch W lang text open)
    | None => (Returned (Some errCannotDetect), [])
    end
  /\ starts_with (Error errCannotDetect) "cannot detect"
  /\ contains (Error errCannotDetect) "$LANG"
  /\ contains (Error errCannotDetect) "$GOOGLE_TRANSLATE_LANG".
Proof.
  split; [apply Main_after_target|]. split; [|split].
  - now exists " language. Please export $LANG or $GOOGLE_TRANSLATE_LANG (e.g. en, ja)".
  - now exists "cannot detect language. Please export ",
      " or $GOOGLE_TRANSLATE_LANG (e.g. en, ja)".
  - now exists "cannot detect language. Please export $LANG or ", " (e.g. en, ja)".
Qed.

(** The selector on the specification's examples. *)
Example selector_examples :
  selected_target_spec (list_to_map [("GOOGLE_TRANSLATE_LANG", "fr")]) "de" = Some "de"
  /\ selected_target_spec (list_to_map [("LANGUAGE", "ja_JP.UTF-8")]) "" = Some "ja"
  /\ selected_target_spec
       (list_to_map [("LANGUAGE", "C"); ("LC_ALL", ""); ("LANG", "pt_BR.UTF-8")]) ""
     = Some "pt"
  /\ selected_target_spec (list_to_map [("LANG", "C")]) "" = None.
Proof. repeat split; vm_compute; reflexivity. Qed.

(** C10. In open-browser mode with an empty -to flag, target-language
    resolution still runs first: when GOOGLE_TRANSLATE_LANG is empty and none
    of LANGUAGE, LC_ALL, LANG resolve, the program fails with the "cannot
    detect language" error and has done nothing before it: the browser is
    not opened, although this mode needs no credentials. *)
Theorem C10_browser_mode_needs_target W r :
  Getenv (environ W) "GOOGLE_TRANSLATE_LANG" = "" ->
  langCodeFromLocale (Getenv (environ W) "LANGUAGE") = "" ->
  langCodeFromLocale (Getenv (environ W) "LC_ALL") = "" ->
  langCodeFromLocale (Getenv (environ W) "LANG") = "" ->
  Main W r "" true = (Returned (Some errCannotDetect), [])
  /\ browser_opens (snd (Main W r "" true)) = [].
Proof.
  intros H0 H1 H2 H3.
  assert (selected_target_spec (environ W) "" = None) as Hsel.
  { unfold selected_target_spec. rewrite H0. cbn. rewrite H1, H2, H3. reflexivity. }
  rewrite !Main_after_target, Hsel. split; reflexivity.
Qed.

Lemma C10_browser_mode_needs_target_witness :
  Main (Sample.world [("LANG", "C")] ["hi"] "en") (Sample.stdin "") "" true
  = (Returned (Some errCannotDetect), []).
Proof.
  apply (C10_browser_mode_needs_target
           (Sample.world [("LANG", "C")] ["hi"] "en") (Sample.stdin ""));
    vm_compute; reflexivity.
Defined.

(** ** Input text *)

(** C7 as stated fails: with the single free-text argument [""] the joined
    text is empty, and standard input is read although an argument was
    given. *)
Lemma C7_counterexample :
  let W := Sample.world [] [""] "en" in
  flag_Args W <> []
  /\ Main_text W (Sample.stdin "from stdin") = (Next "from stdin", [EvReadAll])
  /\ Main W (Sample.stdin "from stdin") "ja" true
     = (Returned None,
        [EvReadAll; EvOpenBrowser "https://translate.google.com/#auto/ja/from+stdin"]).
Proof. cbv zeta. split; [discriminate|]. split; vm_compute; reflexivity. Qed.

(** C7, amended.  Once the target language is selected, the input text is
    the free-text arguments joined with single spaces when that joined string
    is non-empty; if and only if the joined string is empty, which is the
    case for no arguments and for exactly one empty argument, standard input
    is read in full and its contents are the input text, and a read error
    ends the run with that error. *)
Theorem C7_input_text W r flag open lang :
  selected_target_spec (environ W) flag = Some lang ->
  let joined := gostrings.Join (flag_Args W) " " in
  (joined <> "" -> Main W r flag open = func (Main_dispatch W lang joined open))
  /\ (joined = "" -> read_err r = None ->
      Main W r flag open
      = after [EvReadAll] (func (Main_dispatch W lang (contents r) open)))
  /\ (joined = "" -> forall e, read_err r = Some e ->
      Main W r flag open = (Returned (Some e), [EvReadAll]))
  /\ (In EvReadAll (snd (Main_text W r)) <-> joined = "")
  /\ (joined = "" <-> flag_Args W = [] \/ flag_Args W = [""]).
Proof.
  intros Hsel joined. rewrite (Main_with_target W r flag open lang Hsel).
  rewrite !Main_text_spec. fold joined.
  assert (joined = "" <-> flag_Args W = [] \/ flag_Args W = [""]) as HJ
    by apply Join_empty.
  destruct (String.eqb_spec joined "") as [E | E].
  - split; [intros H; contradiction|].
    split; [intros _ Hr; rewrite Hr; reflexivity|].
    split; [intros _ e Hr; rewrite Hr; reflexivity|].
    split; [|exact HJ].
    split; [intros _; exact E | intros _; destruct (read_err r); simpl; now left].
  - split; [intros _; apply after_nil|].
    split; [intros H; contradiction|].
    split; [intros H; contradiction|].
    split; [|exact HJ].
    split; [intros [] | intros H; contradiction].
Qed.

Lemma C7_input_text_witness :
  Main (Sample.world [] ["hi"; "there"] "en") (Sample.stdin "unused") "ja" true
  = func (Main_dispatch (Sample.world [] ["hi"; "there"] "en") "ja" "hi there" true).
Proof.
  refine (proj1 (C7_input_text (Sample.world [] ["hi"; "there"] "en")
                   (Sample.stdin "unused") "ja" true "ja" _) _).
  - vm_compute; reflexivity.
  - discriminate.
Defined.

(** ** Translation Client *)

Lemma Translate_spec W g text target :
  Translate W g text target =
    let c := Format (Translations_List (srv g) [text] target) "text" in
    (match Translations_Do W c with
     | inr err => Returned ("", Some (fmt_Errorf_v "fail to call translate API: " err))
     | inl resp =>
         match Translations resp with
         | x :: _ => Returned (TranslatedText x, None)
         | [] => Panicked
         end
     end, [EvTranslate c]).
Proof.
  unfold Translate, call_Do_Translations, extern, call, bind, func. cbv zeta.
  destruct (Translations_Do W _) as [resp | err]; [|reflexivity].
  simpl. destruct (Translations resp); reflexivity.
Qed.

Lemma Detect_spec W g text :
  Detect W g text =
    let c := Detections_List (srv g) [text] in
    (match Detections_Do W c with
     | inr err => Returned ("", Some (fmt_Errorf_v "fail to call detection API: " err))
     | inl resp =>
         match Detections resp with
         | (d :: _) :: _ => Returned (Language d, None)
         | _ => Panicked
         end
     end, [EvDetect c]).
Proof.
  unfold Detect, call_Do_Detections, extern, call, bind, func. cbv zeta.
  destruct (Detections_Do W _) as [resp | err]; [|reflexivity].
  simpl. destruct (Detections resp) as [|[|d ds] rest]; reflexivity.
Qed.

(** C8. Detect and Translate return an error if and only if the underlying
    API call fails; the error returned is the API's error behind a prefix
    that tells the two calls apart ("fail to call detection API: ", "fail to
    call translate API: "); on success they return the first result of the
    API response.  Each makes exactly one API call. *)
Theorem C8_client_operations W g text target :
  let tc := Format (Translations_List (srv g) [text] target) "text" in
  let dc := Detections_List (srv g) [text] in
  ((exists s e, fst (Translate W g text target) = Returned (s, Some e))
   <-> (exists err, Translations_Do W tc = inr err))
  /\ ((exists s e, fst (Detect W g text) = Returned (s, Some e))
      <-> (exists err, Detections_Do W dc = inr err))
  /\ (forall err, Translations_Do W tc = inr err ->
      fst (Translate W g text target)
      = Returned ("", Some (errorString ("fail to call translate API: " +:+ Error err))))
  /\ (forall err, Detections_Do W dc = inr err ->
      fst (Detect W g text)
      = Returned ("", Some (errorString ("fail to call detection API: " +:+ Error err))))
  /\ (forall resp x rest,
      Translations_Do W tc = inl resp -> Translations resp = x :: rest ->
      fst (Translate W g text target) = Returned (TranslatedText x, None))
  /\ (forall resp d ds rest,
      Detections_Do W dc = inl resp -> Detections resp = (d :: ds) :: rest ->
      fst (Detect W g text) = Returned (Language d, None))
  /\ snd (Translate W g text target) = [EvTranslate tc]
  /\ snd (Detect W g text) = [EvDetect dc].
Proof.
  intros tc dc. rewrite Translate_spec, Detect_spec. cbv zeta. fold tc dc.
  cbn [fst snd].
  split.
  { split.
    - intros (s & e & H). destruct (Translations_Do W tc) as [resp | err]; [|eauto].
      destruct (Translations resp); discriminate.
    - intros [err ->]. eauto. }
  split.
  { split.
    - intros (s & e & H). destruct (Detections_Do W dc) as [resp | err]; [|eauto].
      destruct (Detections resp) as [|[|d ds] rest]; discriminate.
    - intros [err ->]. eauto. }
  split; [intros err ->; reflexivity|].
  split; [intros err ->; reflexivity|].
  split; [intros resp x rest -> ->; reflexivity|].
  split; [intros resp d ds rest -> ->; reflexivity|].
  split; reflexivity.
Qed.

(** C8 where the API refuses the translate call. *)
Lemma C8_client_operations_witness :
  fst (Translate (Sample.failing_world [] []) Sample.gtrans "hello" "ja")
  = Returned ("", Some (errorString "fail to call translate API: googleapi: Error 403")).
Proof.
  exact (proj1 (proj2 (proj2
           (C8_client_operations (Sample.failing_world [] []) Sample.gtrans "hello" "ja")))
           (errors_New "googleapi: Error 403") eq_refl).
Defined.

(** A response without results: the index expression panics. *)
Example Translate_empty_response :
  let W := {| environ := ∅; flag_Args := [];
              ghttp_NewClient := fun _ => None; translate_New := fun _ => None;
              Translations_Do := fun _ => inl {| Translations := [] |};
              Detections_Do := fun _ => inl {| Detections := [] |};
              openbrowser_Start := fun _ => None |} in
  fst (Translate W Sample.gtrans "hello" "ja") = Panicked
  /\ fst (Detect W Sample.gtrans "hello") = Panicked.
Proof. split; reflexivity. Qed.

(** ** Translation mode *)

(** Unfold the statements of [runTranslation], then split on what the
    collaborators answer. *)
Ltac unfold_run :=
  cbv beta iota zeta delta
    [runTranslation when bind call func pure return_ panic extern ghttpClient
     oauthClient call_translate_New deref first is_nil negb andb nonempty
     Detect Translate call_Do_Detections call_Do_Translations];
  cbn [app fst snd].

Ltac atomic x :=
  lazymatch x with
  | ghttp_NewClient _ _ => idtac
  | translate_New _ _ => idtac
  | Translations_Do _ _ => idtac
  | Detections_Do _ _ => idtac
  | String.eqb _ _ => idtac
  | Translations _ => idtac
  | Detections _ => idtac
  | _ => is_var x
  end.

Ltac crunch :=
  repeat (unfold_run;
          match goal with
          | H : ?x = _ |- context [match ?x with _ => _ end] => rewrite H
          | |- context [match ?x with _ => _ end] => atomic x; destruct x eqn:?
          end);
  unfold_run.

Ltac eqb_facts :=
  repeat match goal with
    | H : String.eqb ?a ?b = true |- _ =>
        lazymatch goal with
        | _ : a = b |- _ => fail
        | _ => pose proof (proj1 (String.eqb_eq a b) H)
        end
    | H : String.eqb ?a ?b = false |- _ =>
        lazymatch goal with
        | _ : a <> b |- _ => fail
        | _ => pose proof (proj1 (String.eqb_neq a b) H)
        end
    end.

Ltac in_cases H :=
  repeat match type of H with
    | In _ (_ :: _) => destruct H as [<- | H]
    | In _ [] => destruct H
    | False => destruct H
    end.

Lemma runTranslation_no_credential W lang text :
  Getenv (environ W) "GOOGLE_TRANSLATE_API_KEY" = "" ->
  Getenv (environ W) "GOOGLE_TRANSLATE_ACCESS_TOKEN" = "" ->
  runTranslation W lang text = (Returned (Some errNoCredential), []).
Proof.
  intros Hk Ht. unfold runTranslation. cbv zeta. rewrite Hk, Ht. reflexivity.
Qed.

(** The events of the text step are not calls to the translation service. *)
Lemma Main_text_quiet W r text es :
  Main_text W r = (Next text, es) ->
  forall tr,
    detect_calls (es ++ tr) = detect_calls tr
    /\ translate_calls (es ++ tr) = translate_calls tr
    /\ services_built (es ++ tr) = services_built tr
    /\ browser_opens (es ++ tr) = browser_opens tr
    /\ network_calls (es ++ tr) = network_calls tr.
Proof.
  intros H tr. pose proof (Main_text_events W r) as Hes. rewrite H in Hes.
  cbn [snd] in Hes. destruct Hes as [-> | ->]; repeat split; reflexivity.
Qed.

(** C6 as stated fails: with no credential and browser mode off, a run
    whose standard input cannot be read ends with the read error, not with
    the credential error. *)
Lemma C6_counterexample :
  let W := Sample.world [] [] "en" in
  Getenv (environ W) "GOOGLE_TRANSLATE_API_KEY" = ""
  /\ Getenv (environ W) "GOOGLE_TRANSLATE_ACCESS_TOKEN" = ""
  /\ Main W Sample.broken_stdin "ja" false
     = (Returned (Some (errors_New "read /dev/stdin: bad file descriptor")), [EvReadAll])
  /\ errors_New "read /dev/stdin: bad file descriptor" <> errNoCredential.
Proof. cbv zeta. repeat split; try (vm_compute; reflexivity). discriminate. Qed.

(** The same with no target language to be found: the run ends with the
    "cannot detect language" error before credentials are looked at. *)
Example no_credential_no_language :
  Main (Sample.world [("LANG", "C")] ["hi"] "en") (Sample.stdin "") "" false
  = (Returned (Some errCannotDetect), []).
Proof. vm_compute; reflexivity. Qed.

(** C6, amended.  With browser mode off and both GOOGLE_TRANSLATE_API_KEY
    and GOOGLE_TRANSLATE_ACCESS_TOKEN unset or empty, the program fails and
    attempts no network call: no client or service is constructed, nothing
    is detected or translated.  The error is the credential error ("neither
    GOOGLE_TRANSLATE_API_KEY nor GOOGLE_TRANSLATE_ACCESS_TOKEN is not set")
    once the target language is selected and the input text is read; a run
    that cannot select a target language or cannot read standard input fails
    with that earlier error instead. *)
Theorem C6_no_credential W r flag :
  Getenv (environ W) "GOOGLE_TRANSLATE_API_KEY" = "" ->
  Getenv (environ W) "GOOGLE_TRANSLATE_ACCESS_TOKEN" = "" ->
  Main W r flag false =
    match selected_target_spec (environ W) flag with
    | None => (Returned (Some errCannotDetect), [])
    | Some _ =>
        if String.eqb (gostrings.Join (flag_Args W) " ") "" then
          match read_err r with
          | Some e => (Returned (Some e), [EvReadAll])
          | None => (Returned (Some errNoCredential), [EvReadAll])
          end
        else (Returned (Some errNoCredential), [])
    end
  /\ (exists e, fst (Main W r flag false) = Returned (Some e))
  /\ network_calls (snd (Main W r flag false)) = [].
Proof.
  intros Hk Ht.
  assert (Main W r flag false =
    match selected_target_spec (environ W) flag with
    | None => (Returned (Some errCannotDetect), [])
    | Some _ =>
        if String.eqb (gostrings.Join (flag_Args W) " ") "" then
          match read_err r with
          | Some e => (Returned (Some e), [EvReadAll])
          | None => (Returned (Some errNoCredential), [EvReadAll])
          end
        else (Returned (Some errNoCredential), [])
    end) as HM.
  { destruct (selected_target_spec (environ W) flag) as [lang|] eqn:Hsel.
    - rewrite (Main_with_target W r flag false lang Hsel), Main_text_spec.
      destruct (String.eqb _ ""); [destruct (read_err r)|];
        rewrite ?Main_dispatch_spec, ?(runTranslation_no_credential W _ _ Hk Ht);
        reflexivity.
    - now rewrite Main_after_target, Hsel. }
  rewrite HM. split; [reflexivity|].
  destruct (selected_target_spec (environ W) flag);
    [destruct (String.eqb _ ""); [destruct (read_err r)|]|];
    split; solve [eauto | reflexivity].
Qed.

Lemma C6_no_credential_witness :
  Main (Sample.world [("GOOGLE_TRANSLATE_LANG", "ja")] ["hello"] "en")
    (Sample.stdin "") "" false
  = (Returned (Some errNoCredential), []).
Proof.
  refine (eq_trans
            (proj1 (C6_no_credential
                      (Sample.world [("GOOGLE_TRANSLATE_LANG", "ja")] ["hello"] "en")
                      (Sample.stdin "") "" _ _)) _);
    vm_compute; reflexivity.
Defined.

(** ** Credentials *)

Lemma runTranslation_both W lang text :
  Getenv (environ W) "GOOGLE_TRANSLATE_API_KEY" <> "" ->
  Getenv (environ W) "GOOGLE_TRANSLATE_ACCESS_TOKEN" <> "" ->
  let apiKey := Getenv (environ W) "GOOGLE_TRANSLATE_API_KEY" in
  let token := Getenv (environ W) "GOOGLE_TRANSLATE_ACCESS_TOKEN" in
  match ghttp_NewClient W apiKey with
  | Some err => runTranslation W lang text = (Returned (Some err), [EvNewAPIKeyClient apiKey])
  | None =>
      exists rest,
        snd (runTranslation W lang text)
        = [EvNewAPIKeyClient apiKey; EvNewOAuthClient token;
           EvNewService (Some (OAuthClient token))] ++ rest
        /\ services_built rest = []
        /\ (forall c, In c (detect_calls rest) ->
                      svc_client (dl_srv c) = Some (OAuthClient token))
        /\ (forall c, In c (translate_calls rest) ->
                      svc_client (tl_srv c) = Some (OAuthClient token))
  end.
Proof.
  intros Hk Ht apiKey token. apply String.eqb_neq in Hk, Ht.
  fold apiKey in Hk. fold token in Ht.
  destruct (ghttp_NewClient W apiKey) as [err|] eqn:Hg.
  - unfold runTranslation. cbv zeta. fold apiKey token. crunch. reflexivity.
  - unfold runTranslation. cbv zeta. fold apiKey token. crunch.
    all: eexists; (split; [reflexivity|]); cbn.
    all: (split; [reflexivity|]).
    all: split; intros c Hc; repeat (destruct Hc as [<- | Hc]; [reflexivity|]); destruct Hc.
Qed.

(** C1 as stated fails: with both credentials set, the service is built
    over the access-token client, not over the API-key client. *)
Lemma C1_counterexample :
  let W := Sample.world [("GOOGLE_TRANSLATE_API_KEY", "key");
                         ("GOOGLE_TRANSLATE_ACCESS_TOKEN", "tok")] ["hi"] "en" in
  Getenv (environ W) "GOOGLE_TRANSLATE_API_KEY" = "key"
  /\ Getenv (environ W) "GOOGLE_TRANSLATE_ACCESS_TOKEN" = "tok"
  /\ Main W (Sample.stdin "") "ja" false
     = (Returned None,
        [EvNewAPIKeyClient "key"; EvNewOAuthClient "tok";
         EvNewService (Some (OAuthClient "tok"));
         EvTranslate {| tl_srv := mkService (Some (OAuthClient "tok"));
                        tl_q := ["hi"]; tl_target := "ja"; tl_format := "text" |};
         EvWrite ("to ja" +:+ String "010" "")])
  /\ services_built (snd (Main W (Sample.stdin "") "ja" false))
     <> [Some (APIKeyClient "key")].
Proof.
  cbv zeta. repeat split; try (vm_compute; reflexivity).
  vm_compute. discriminate.
Qed.

(** C1, amended.  When both GOOGLE_TRANSLATE_API_KEY and
    GOOGLE_TRANSLATE_ACCESS_TOKEN are set non-empty and browser mode is off,
    the API key is looked at first and an HTTP client is built from it, a
    failure of which ends the run; the client built from the access token
    then replaces it.  The translation service, and with it every Detect and
    Translate call, uses the access-token client: the access token has
    priority. *)
Theorem C1_access_token_priority W r flag lang text es :
  selected_target_spec (environ W) flag = Some lang ->
  Main_text W r = (Next text, es) ->
  Getenv (environ W) "GOOGLE_TRANSLATE_API_KEY" <> "" ->
  Getenv (environ W) "GOOGLE_TRANSLATE_ACCESS_TOKEN" <> "" ->
  let apiKey := Getenv (environ W) "GOOGLE_TRANSLATE_API_KEY" in
  let token := Getenv (environ W) "GOOGLE_TRANSLATE_ACCESS_TOKEN" in
  let tr := snd (Main W r flag false) in
  match ghttp_NewClient W apiKey with
  | Some err =>
      Main W r flag false = (Returned (Some err), es ++ [EvNewAPIKeyClient apiKey])
  | None =>
      (exists rest,
          tr = es ++ [EvNewAPIKeyClient apiKey; EvNewOAuthClient token;
                      EvNewService (Some (OAuthClient token))] ++ rest)
      /\ services_built tr = [Some (OAuthClient token)]
      /\ (forall c, In c (detect_calls tr) ->
                    svc_client (dl_srv c) = Some (OAuthClient token))
      /\ (forall c, In c (translate_calls tr) ->
                    svc_client (tl_srv c) = Some (OAuthClient token))
  end.
Proof.
  intros Hsel Htext Hk Ht apiKey token tr. subst tr.
  pose proof (runTranslation_both W lang text Hk Ht) as HB. cbv zeta in HB.
  fold apiKey token in HB.
  rewrite (Main_run W r flag false lang text es Hsel Htext).
  destruct (ghttp_NewClient W apiKey) as [err|].
  - rewrite HB. reflexivity.
  - destruct HB as (rest & Htr & Hs & Hd & Htl).
    unfold after. cbn [snd]. rewrite Htr.
    destruct (Main_text_quiet W r text es Htext
                ([EvNewAPIKeyClient apiKey; EvNewOAuthClient token;
                  EvNewService (Some (OAuthClient token))] ++ rest))
      as (-> & -> & -> & _).
    cbn [app detect_calls translate_calls services_built flat_map].
    fold (services_built rest) (detect_calls rest) (translate_calls rest).
    rewrite Hs. split; [now exists rest|]. split; [reflexivity|]. split; assumption.
Qed.

Lemma C1_access_token_priority_witness :
  services_built
    (snd (Main (Sample.world [("GOOGLE_TRANSLATE_API_KEY", "key");
                              ("GOOGLE_TRANSLATE_ACCESS_TOKEN", "tok")] ["hi"] "en")
            (Sample.stdin "") "ja" false))
  = [Some (OAuthClient "tok")].
Proof.
  refine (proj1 (proj2
    (C1_access_token_priority
       (Sample.world [("GOOGLE_TRANSLATE_API_KEY", "key");
                      ("GOOGLE_TRANSLATE_ACCESS_TOKEN", "tok")] ["hi"] "en")
       (Sample.stdin "") "ja" "ja" "hi" [] _ _ _ _))).
  - vm_compute; reflexivity.
  - vm_compute; reflexivity.
  - vm_compute; discriminate.
  - vm_compute; discriminate.
Defined.

(** ** Language bounce *)

Lemma runTranslation_bounce W lang text :
  String.eqb (Getenv (environ W) "GOOGLE_TRANSLATE_API_KEY") ""
  && String.eqb (Getenv (environ W) "GOOGLE_TRANSLATE_ACCESS_TOKEN") "" = false ->
  (Getenv (environ W) "GOOGLE_TRANSLATE_API_KEY" <> "" ->
   ghttp_NewClient W (Getenv (environ W) "GOOGLE_TRANSLATE_API_KEY") = None) ->
  (forall c, translate_New W c = None) ->
  let sec := Getenv (environ W) "GOOGLE_TRANSLATE_SECOND_LANG" in
  let tr := snd (runTranslation W lang text) in
  (detect_calls tr <> [] <-> sec <> "")
  /\ (forall c, In c (detect_calls tr) -> dl_q c = [text])
  /\ (sec = "" -> List.map tl_target (translate_calls tr) = [lang])
  /\ (forall c resp d ds rest,
      In c (detect_calls tr) -> Detections_Do W c = inl resp ->
      Detections resp = (d :: ds) :: rest ->
      List.map tl_target (translate_calls tr)
      = [if String.eqb (Language d) lang then sec else lang])
  /\ (forall c err,
      In c (detect_calls tr) -> Detections_Do W c = inr err ->
      translate_calls tr = []).
Proof.
  intros Hcred Hclient Hsvc sec tr. subst tr.
  unfold runTranslation. cbv zeta. fold sec.
  destruct (String.eqb (Getenv (environ W) "GOOGLE_TRANSLATE_API_KEY") "") eqn:Ek;
    destruct (String.eqb (Getenv (environ W) "GOOGLE_TRANSLATE_ACCESS_TOKEN") "") eqn:Et;
    try discriminate Hcred;
    try (assert (ghttp_NewClient W (Getenv (environ W) "GOOGLE_TRANSLATE_API_KEY") = None)
          as Hg by (apply Hclient; now apply String.eqb_neq));
    unfold_run; rewrite ?Ek, ?Et; unfold_run; rewrite ?Hg; unfold_run;
    rewrite Hsvc; crunch.
  all: cbn [detect_calls translate_calls flat_map List.map app tl_target
              Translations_List Format].
  all: eqb_facts.
  all: split; [split; intros ?; congruence|].
  all: split; [intros qc Hc; in_cases Hc; reflexivity|].
  all: split; [intros ?; first [reflexivity | congruence]|].
  all: split; [intros qc qresp qd qds qrest Hc ? ? | intros qc qerr Hc ?]; in_cases Hc;
    try (destruct (String.eqb (Language qd) lang) eqn:?); congruence.
Qed.

(** C2 as stated fails: with browser mode off and the secondary language
    set, a run without credentials stops before the translation client
    exists, and Detect is not called. *)
Lemma C2_counterexample :
  let W := Sample.world [("GOOGLE_TRANSLATE_SECOND_LANG", "en")] ["hi"] "ja" in
  Getenv (environ W) "GOOGLE_TRANSLATE_SECOND_LANG" = "en"
  /\ Main W (Sample.stdin "") "ja" false = (Returned (Some errNoCredential), [])
  /\ detect_calls (snd (Main W (Sample.stdin "") "ja" false)) = [].
Proof. cbv zeta. repeat split; vm_compute; reflexivity. Qed.

(** C2, amended.  In a run with browser mode off that gets as far as the
    translation client (the target language is selected, the input text is
    read, a credential is set, and the client and the service are built
    without error): Detect is called, on the input text, if and only if
    GOOGLE_TRANSLATE_SECOND_LANG is set non-empty.  When it is not set,
    Translate is called with the selected target language.  When Detect
    answers, Translate is called with the secondary language if the detected
    language equals the selected target language as a string, and with the
    selected target language otherwise.  When Detect fails, Translate is not
    called. *)
Theorem C2_language_bounce W r flag lang text es :
  selected_target_spec (environ W) flag = Some lang ->
  Main_text W r = (Next text, es) ->
  String.eqb (Getenv (environ W) "GOOGLE_TRANSLATE_API_KEY") ""
  && String.eqb (Getenv (environ W) "GOOGLE_TRANSLATE_ACCESS_TOKEN") "" = false ->
  (Getenv (environ W) "GOOGLE_TRANSLATE_API_KEY" <> "" ->
   ghttp_NewClient W (Getenv (environ W) "GOOGLE_TRANSLATE_API_KEY") = None) ->
  (forall c, translate_New W c = None) ->
  let sec := Getenv (environ W) "GOOGLE_TRANSLATE_SECOND_LANG" in
  let tr := snd (Main W r flag false) in
  (detect_calls tr <> [] <-> sec <> "")
  /\ (forall c, In c (detect_calls tr) -> dl_q c = [text])
  /\ (sec = "" -> List.map tl_target (translate_calls tr) = [lang])
  /\ (forall c resp d ds rest,
      In c (detect_calls tr) -> Detections_Do W c = inl resp ->
      Detections resp = (d :: ds) :: rest ->
      List.map tl_target (translate_calls tr)
      = [if String.eqb (Language d) lang then sec else lang])
  /\ (forall c err,
      In c (detect_calls tr) -> Detections_Do W c = inr err ->
      translate_calls tr = []).
Proof.
  intros Hsel Htext Hcred Hclient Hsvc sec tr. subst tr.
  rewrite (Main_run W r flag false lang text es Hsel Htext).
  unfold after. cbn [snd].
  destruct (Main_text_quiet W r text es Htext (snd (runTranslation W lang text)))
    as (-> & -> & _).
  exact (runTranslation_bounce W lang text Hcred Hclient Hsvc).
Qed.

(** C2 on the specification's example: target ja, secondary en, and the
    text is detected as ja. *)
Lemma C2_language_bounce_witness :
  List.map tl_target
    (translate_calls
       (snd (Main (Sample.world [("GOOGLE_TRANSLATE_API_KEY", "key");
                                 ("GOOGLE_TRANSLATE_SECOND_LANG", "en")] ["konnichiwa"] "ja")
               (Sample.stdin "") "ja" false)))
  = ["en"].
Proof.
  refine (proj1 (proj2 (proj2 (proj2
    (C2_language_bounce
       (Sample.world [("GOOGLE_TRANSLATE_API_KEY", "key");
                      ("GOOGLE_TRANSLATE_SECOND_LANG", "en")] ["konnichiwa"] "ja")
       (Sample.stdin "") "ja" "ja" "konnichiwa" [] _ _ _ _ _))))
    (Detections_List (mkService (Some (APIKeyClient "key"))) ["konnichiwa"])
    {| Detections := [ [ {| Language := "ja" |} ] ] |}
    {| Language := "ja" |} [] [] _ _ _).
  - vm_compute; reflexivity.
  - vm_compute; reflexivity.
  - vm_compute; reflexivity.
  - intros _. reflexivity.
  - intros c. reflexivity.
  - vm_compute. left. reflexivity.
  - reflexivity.
  - reflexivity.
Defined.

(** The other half of the example: detected as fr, the target stays ja. *)
Example bounce_not_taken :
  List.map tl_target
    (translate_calls
       (snd (Main (Sample.world [("GOOGLE_TRANSLATE_API_KEY", "key");
                                 ("GOOGLE_TRANSLATE_SECOND_LANG", "en")] ["bonjour"] "fr")
               (Sample.stdin "") "ja" false)))
  = ["ja"].
Proof. vm_compute; reflexivity. Qed.

(** ** Browser mode *)

(** C5 as stated fails: [url.QueryEscape] writes a space as [+], so the URL
    opened for target ja and text "hi there" ends in hi+there. *)
Lemma C5_counterexample :
  let W := Sample.world [] ["hi"; "there"] "en" in
  Main_text W (Sample.stdin "") = (Next "hi there", [])
  /\ Main W (Sample.stdin "") "ja" true
     = (Returned None, [EvOpenBrowser "https://translate.google.com/#auto/ja/hi+there"])
  /\ browser_opens (snd (Main W (Sample.stdin "") "ja" true))
     <> ["https://translate.google.com/#auto/ja/hi%20there"].
Proof.
  cbv zeta. repeat split; try (vm_compute; reflexivity).
  vm_compute. discriminate.
Qed.

(** C5, amended.  In open-browser mode, for target language "ja" and input
    text "hi there", the URL handed to the browser-open action is exactly
    "https://translate.google.com/#auto/ja/hi+there" (the text is
    query-escaped, which writes the space as a plus sign), the run returns
    what the browser-open action returns, and no client is built and no
    detect or translate call is made. *)
Theorem C5_browser_url W r flag es :
  selected_target_spec (environ W) flag = Some "ja" ->
  Main_text W r = (Next "hi there", es) ->
  let u := "https://translate.google.com/#auto/ja/hi+there" in
  Main W r flag true = (Returned (openbrowser_Start W u), es ++ [EvOpenBrowser u])
  /\ browser_opens (snd (Main W r flag true)) = [u]
  /\ detect_calls (snd (Main W r flag true)) = []
  /\ translate_calls (snd (Main W r flag true)) = []
  /\ network_calls (snd (Main W r flag true)) = [].
Proof.
  intros Hsel Htext u.
  rewrite (Main_run W r flag true "ja" "hi there" es Hsel Htext).
  rewrite openGoogleTranslate_spec. unfold after. cbn [fst snd].
  destruct (Main_text_quiet W r "hi there" es Htext
              [EvOpenBrowser
                 ("https://translate.google.com/#auto/" +:+ "ja" +:+ "/"
                  +:+ url.QueryEscape "hi there")])
    as (-> & -> & _ & -> & ->).
  repeat split; reflexivity.
Qed.

Lemma C5_browser_url_witness :
  Main (Sample.world [("LANG", "ja_JP.UTF-8")] ["hi"; "there"] "en")
    (Sample.stdin "") "" true
  = (Returned None, [EvOpenBrowser "https://translate.google.com/#auto/ja/hi+there"]).
Proof.
  exact (proj1 (C5_browser_url
                  (Sample.world [("LANG", "ja_JP.UTF-8")] ["hi"; "there"] "en")
                  (Sample.stdin "") "" [] eq_refl eq_refl)).
Defined.

(** [QueryEscape] on a few inputs. *)
Example QueryEscape_examples :
  url.QueryEscape "hi there" = "hi+there"
  /\ url.QueryEscape "a/b&c=d" = "a%2Fb%26c%3Dd"
  /\ url.QueryEscape "Az09-_.~" = "Az09-_.~".
Proof. repeat split; reflexivity. Qed.

(** * Further properties *)

(** ** Locale Resolver and Target Language Selector *)

Lemma langCodeFromLocale_zh locale :
  gostrings.HasPrefix locale "zh_CN" || gostrings.HasPrefix locale "zh_SG"
  || (gostrings.HasPrefix locale "zh_TW" || gostrings.HasPrefix locale "zh_HK") = true ->
  (langCodeFromLocale locale = "zh-CN" \/ langCodeFromLocale locale = "zh-TW")
  /\ exists rest, locale = "zh_" +:+ rest.
Proof.
  intros H. split.
  - unfold langCodeFromLocale.
    destruct (gostrings.HasPrefix locale "zh_CN" || gostrings.HasPrefix locale "zh_SG");
      [now left|].
    cbn [orb] in H. rewrite H. now right.
  - apply orb_true_iff in H. rewrite !orb_true_iff in H.
    destruct H as [[H | H] | [H | H]]; apply HasPrefix_spec in H;
      destruct H as [rest ->]; eexists; reflexivity.
Qed.

Lemma langCodeFromLocale_empty_iff locale :
  langCodeFromLocale locale = "" <-> ~ has_byte "_" locale \/ starts_with locale "_".
Proof.
  destruct (gostrings.HasPrefix locale "zh_CN" || gostrings.HasPrefix locale "zh_SG"
            || (gostrings.HasPrefix locale "zh_TW" || gostrings.HasPrefix locale "zh_HK"))
    eqn:Ezh.
  - destruct (langCodeFromLocale_zh locale Ezh) as [Hres [rest ->]]. split.
    + intros E. destruct Hres as [H | H]; rewrite E in H; discriminate.
    + intros [Hno | [rest' H]]; [|discriminate].
      exfalso. apply Hno. now exists "zh", rest.
  - apply orb_false_elim in Ezh as [E1 E2].
    apply orb_false_elim in E1 as [E1 E1'], E2 as [E2 E2'].
    apply HasPrefix_false in E1, E1', E2, E2'.
    destruct (langCodeFromLocale_other locale E1 E1' E2 E2')
      as [[Hno ->] | (pre & post & Hsplit & Hpre & ->)].
    + split; [now left | reflexivity].
    + split.
      * intros ->. right. now exists post.
      * intros [Hno | [rest Hrest]].
        -- exfalso. apply Hno. now exists pre, post.
        -- apply (first_split_unique "_" pre post "" rest).
           ++ rewrite <- Hsplit. exact Hrest.
           ++ exact Hpre.
           ++ apply has_byte_nil.
Qed.

Lemma langCodeFromLocale_no_underscore locale :
  ~ has_byte "_" (langCodeFromLocale locale).
Proof.
  destruct (gostrings.HasPrefix locale "zh_CN" || gostrings.HasPrefix locale "zh_SG"
            || (gostrings.HasPrefix locale "zh_TW" || gostrings.HasPrefix locale "zh_HK"))
    eqn:Ezh.
  - destruct (langCodeFromLocale_zh locale Ezh) as [[-> | ->] _];
      apply has_byteb_false; reflexivity.
  - apply orb_false_elim in Ezh as [E1 E2].
    apply orb_false_elim in E1 as [E1 E1'], E2 as [E2 E2'].
    apply HasPrefix_false in E1, E1', E2, E2'.
    destruct (langCodeFromLocale_other locale E1 E1' E2 E2')
      as [[_ ->] | (pre & post & _ & Hpre & ->)]; [apply has_byte_nil | exact Hpre].
Qed.

(** X1. The Locale Resolver leaves a locale unresolved (returns the empty
    string) exactly when the locale contains no underscore or starts with
    one.  So "C", "POSIX", a bare "ja" and the empty string are unresolved,
    and every other value resolves to something. *)
Theorem X1_unresolved_iff (locale : string) :
  langCodeFromLocale locale = "" <-> ~ has_byte "_" locale \/ starts_with locale "_".
Proof. apply langCodeFromLocale_empty_iff. Qed.

(** X2. A code the Locale Resolver returned is never itself resolved: the
    resolver applied to its own result gives the empty string.  Language
    codes are not locales. *)
Theorem X2_resolver_twice (locale : string) :
  langCodeFromLocale (langCodeFromLocale locale) = "".
Proof.
  apply langCodeFromLocale_empty_iff. left. apply langCodeFromLocale_no_underscore.
Qed.

(** X3. [detectTargetLang] returns either a non-empty language code with
    no error, or the empty code with the "cannot detect language" error,
    never an empty code without error.  A code it returns is
    GOOGLE_TRANSLATE_LANG as it stands, or, that variable being empty, the
    resolution of one of LANGUAGE, LC_ALL, LANG; it fails only when
    GOOGLE_TRANSLATE_LANG is empty and none of the three resolves. *)
Theorem X3_detectTargetLang_result (env : gmap string string) :
  match detectTargetLang env with
  | (code, None) =>
      code <> ""
      /\ (code = Getenv env "GOOGLE_TRANSLATE_LANG"
          \/ (Getenv env "GOOGLE_TRANSLATE_LANG" = ""
              /\ exists v, In v ["LANGUAGE"; "LC_ALL"; "LANG"]
                           /\ code = langCodeFromLocale (Getenv env v)))
  | (code, Some err) =>
      code = "" /\ err = errCannotDetect
      /\ Getenv env "GOOGLE_TRANSLATE_LANG" = ""
      /\ forall v, In v ["LANGUAGE"; "LC_ALL"; "LANG"] ->
                   langCodeFromLocale (Getenv env v) = ""
  end.
Proof.
  unfold detectTargetLang.
  destruct (String.eqb_spec (Getenv env "GOOGLE_TRANSLATE_LANG") "") as [E0 | E0];
    cbn [negb]; [|now split; [|left]].
  cbn [detectTargetLang_range].
  destruct (String.eqb_spec (langCodeFromLocale (Getenv env "LANGUAGE")) "") as [E1 | E1];
    cbn [negb]; [|split; [exact E1 | right; split; [exact E0|]]; exists "LANGUAGE"; cbn; tauto].
  destruct (String.eqb_spec (langCodeFromLocale (Getenv env "LC_ALL")) "") as [E2 | E2];
    cbn [negb]; [|split; [exact E2 | right; split; [exact E0|]]; exists "LC_ALL"; cbn; tauto].
  destruct (String.eqb_spec (langCodeFromLocale (Getenv env "LANG")) "") as [E3 | E3];
    cbn [negb]; [|split; [exact E3 | right; split; [exact E0|]]; exists "LANG"; cbn; tauto].
  repeat split; try assumption.
  intros v [<- | [<- | [<- | []]]]; assumption.
Qed.

(** ** The shape of a run *)

Lemma nonempty_true s : nonempty s = true <-> s <> "".
Proof.
  unfold nonempty. destruct (String.eqb_spec s ""); cbn; split; congruence.
Qed.

Lemma selected_target_nonempty env flag lang :
  selected_target_spec env flag = Some lang -> lang <> "".
Proof.
  unfold selected_target_spec.
  destruct (nonempty flag) eqn:Ef.
  { intros [= <-]. now apply nonempty_true. }
  destruct (nonempty (Getenv env "GOOGLE_TRANSLATE_LANG")) eqn:Eg.
  { intros [= <-]. now apply nonempty_true. }
  intros H. apply List.find_some in H as [_ H]. now apply nonempty_true.
Qed.

(** A run of [Main] either stops before its mode starts, with an error and
    at most the read of standard input behind it, or is the mode's function
    run on a non-empty target language and the input text. *)
Lemma Main_cases W r flag open :
  (exists e es,
      Main W r flag open = (Returned (Some e), es) /\ (es = [] \/ es = [EvReadAll]))
  \/ (exists lang text es,
         lang <> ""
         /\ selected_target_spec (environ W) flag = Some lang
         /\ Main_text W r = (Next text, es)
         /\ Main W r flag open
            = after es (if open then openGoogleTranslate W lang text
                        else runTranslation W lang text)).
Proof.
  destruct (selected_target_spec (environ W) flag) as [lang|] eqn:Hsel.
  - destruct (Main_text W r) as [[text | e |] es] eqn:Htext.
    + right. exists lang, text, es.
      split; [eapply selected_target_nonempty; eassumption|].
      split; [reflexivity|]. split; [reflexivity|].
      now apply Main_run.
    + left. pose proof (Main_text_events W r) as Hes.
      rewrite (Main_with_target W r flag open lang Hsel).
      rewrite Main_text_spec in Htext |- *.
      destruct (String.eqb _ ""); [|discriminate].
      destruct (read_err r) as [e'|]; [|discriminate].
      exists e', [EvReadAll]. split; [reflexivity | now right].
    + exfalso. rewrite Main_text_spec in Htext.
      destruct (String.eqb _ ""); [destruct (read_err r)|]; discriminate.
  - left. exists errCannotDetect, []. rewrite Main_after_target, Hsel.
    split; [reflexivity | now left].
Qed.

(** ** What is sent to the translation service *)

Lemma runTranslation_request W lang text c :
  In c (translate_calls (snd (runTranslation W lang text))) ->
  tl_q c = [text] /\ tl_format c = "text"
  /\ (tl_target c = lang
      \/ (Getenv (environ W) "GOOGLE_TRANSLATE_SECOND_LANG" <> ""
          /\ tl_target c = Getenv (environ W) "GOOGLE_TRANSLATE_SECOND_LANG")).
Proof.
  revert c. crunch.
  all: cbn [translate_calls flat_map app].
  all: intros qc Hc; in_cases Hc.
  all: eqb_facts; cbn; repeat split; solve [now left | now right].
Qed.

(** X4. Every translate call of [runTranslation] carries the input text,
    unchanged, as its only query, asks for the format "text", and names as
    target either the target language the run was given or the non-empty
    secondary language. *)
Theorem X4_translate_request W lang text c :
  In c (translate_calls (snd (runTranslation W lang text))) ->
  tl_q c = [text] /\ tl_format c = "text"
  /\ (tl_target c = lang
      \/ (Getenv (environ W) "GOOGLE_TRANSLATE_SECOND_LANG" <> ""
          /\ tl_target c = Getenv (environ W) "GOOGLE_TRANSLATE_SECOND_LANG")).
Proof. apply runTranslation_request. Qed.

Lemma X4_translate_request_witness :
  let W := Sample.world [("GOOGLE_TRANSLATE_API_KEY", "key")] ["hello"] "en" in
  let c := {| tl_srv := mkService (Some (APIKeyClient "key"));
              tl_q := ["hello"]; tl_target := "ja"; tl_format := "text" |} in
  tl_q c = ["hello"] /\ tl_format c = "text"
  /\ (tl_target c = "ja"
      \/ (Getenv (environ W) "GOOGLE_TRANSLATE_SECOND_LANG" <> ""
          /\ tl_target c = Getenv (environ W) "GOOGLE_TRANSLATE_SECOND_LANG")).
Proof.
  cbv zeta.
  apply (X4_translate_request
           (Sample.world [("GOOGLE_TRANSLATE_API_KEY", "key")] ["hello"] "en")
           "ja" "hello").
  vm_compute. left. reflexivity.
Defined.

(** X5. Translate is never called with an empty target language, whatever
    the flags, the environment and the answers of the service: the target is
    the non-empty flag, a non-empty detected code, or the non-empty
    secondary language. *)
Theorem X5_target_never_empty W r flag open c :
  In c (translate_calls (snd (Main W r flag open))) -> tl_target c <> "".
Proof.
  destruct (Main_cases W r flag open)
    as [(e & es & -> & [-> | ->]) | (lang & text & es & Hlang & _ & Htext & ->)];
    try (intros []).
  unfold after. cbn [snd]. destruct open.
  - destruct (Main_text_quiet W r text es Htext
                (snd (openGoogleTranslate W lang text))) as (_ & -> & _).
    intros [].
  - destruct (Main_text_quiet W r text es Htext
                (snd (runTranslation W lang text))) as (_ & -> & _).
    intros Hc. apply runTranslation_request in Hc as (_ & _ & [-> | [Hsec ->]]);
      assumption.
Qed.

Lemma X5_target_never_empty_witness :
  tl_target {| tl_srv := mkService (Some (APIKeyClient "key"));
               tl_q := ["hello"]; tl_target := "ja"; tl_format := "text" |} <> "".
Proof.
  apply (X5_target_never_empty
           (Sample.world [("GOOGLE_TRANSLATE_API_KEY", "key")] ["hello"] "en")
           (Sample.stdin "") "ja" false).
  vm_compute. left. reflexivity.
Defined.

(** ** What a run writes *)

(** Case analysis on a run of [runTranslation], named [p] in the goal. *)
Ltac run_cases W lang text :=
  let p := fresh "p" in
  let Hp := fresh "Hp" in
  remember (runTranslation W lang text) as p eqn:Hp; revert Hp; crunch;
  intros ->; cbn [fst snd].

(** Membership of an event in an explicit trace. *)
Ltac in_event_cases H :=
  repeat match type of H with
    | In _ (_ :: _) =>
        let E := fresh "E" in
        destruct H as [E | H]; [first [discriminate E | injection E as <-]|]
    | In _ [] => destruct H
    | False => destruct H
    end.

Ltac give_prefix :=
  match goal with
  | |- exists pre, ?l = pre ++ _ => exists (removelast l); reflexivity
  end.

Lemma runTranslation_output W lang text :
  match fst (runTranslation W lang text) with
  | Returned None =>
      exists c resp x rest,
        In c (translate_calls (snd (runTranslation W lang text)))
        /\ Translations_Do W c = inl resp
        /\ Translations resp = x :: rest
        /\ writes (snd (runTranslation W lang text)) = [line (TranslatedText x)]
        /\ exists pre,
            snd (runTranslation W lang text) = pre ++ [EvWrite (line (TranslatedText x))]
  | _ => writes (snd (runTranslation W lang text)) = []
  end.
Proof.
  run_cases W lang text.
  all: try reflexivity.
  all: do 4 eexists.
  all: (split; [cbn; left; reflexivity|]).
  all: (split; [eassumption|]).
  all: (split; [eassumption|]).
  all: (split; [reflexivity|]).
  all: give_prefix.
Qed.


(** ** The order of the calls *)

Lemma runTranslation_order W lang text :
  StronglySorted lt (0%nat :: List.map phase (snd (runTranslation W lang text))).
Proof.
  run_cases W lang text.
  all: cbn [List.map phase]; repeat constructor.
Qed.

(** X7. The calls of an invocation happen in one fixed order, each kind at
    most once: reading standard input, building the API-key client, building
    the access-token client, building the service, the detect call, the
    translate call, writing the result; in browser mode, reading standard
    input and then opening the browser.  In particular nothing is sent to the
    service after the translate call, and nothing is detected or translated
    twice. *)
Theorem X7_call_order W r flag open :
  StronglySorted lt (List.map phase (snd (Main W r flag open))).
Proof.
  destruct (Main_cases W r flag open)
    as [(e & es & -> & [-> | ->]) | (lang & text & es & _ & _ & Htext & ->)];
    try (cbn; repeat constructor).
  pose proof (Main_text_events W r) as Hes. rewrite Htext in Hes. cbn [snd] in Hes.
  unfold after. cbn [snd].
  assert (StronglySorted lt
            (0%nat :: List.map phase
                        (snd (if open then openGoogleTranslate W lang text
                              else runTranslation W lang text)))) as Hs.
  { destruct open; [cbn; repeat constructor | apply runTranslation_order]. }
  destruct Hes as [-> | ->].
  - now inversion Hs.
  - exact Hs.
Qed.

(** ** The client in use *)

(** X8. The HTTP client behind the translation service is the one built
    from the access token whenever the access token is set, and the one
    built from the API key otherwise; the service and every detect and
    translate call of the run use that client.  A client is only ever built
    from a credential that is set. *)
Theorem X8_client_in_use W lang text :
  let apiKey := Getenv (environ W) "GOOGLE_TRANSLATE_API_KEY" in
  let token := Getenv (environ W) "GOOGLE_TRANSLATE_ACCESS_TOKEN" in
  let client := Some (if nonempty token then OAuthClient token else APIKeyClient apiKey) in
  let tr := snd (runTranslation W lang text) in
  (forall c, In c (services_built tr) -> c = client)
  /\ (forall c, In c (detect_calls tr) -> svc_client (dl_srv c) = client)
  /\ (forall c, In c (translate_calls tr) -> svc_client (tl_srv c) = client)
  /\ (forall k, In (EvNewAPIKeyClient k) tr -> k = apiKey /\ apiKey <> "")
  /\ (forall t, In (EvNewOAuthClient t) tr -> t = token /\ token <> "").
Proof.
  cbv zeta. run_cases W lang text.
  all: eqb_facts.
  all: cbn [services_built detect_calls translate_calls flat_map app].
  all: (split; [|split; [|split; [|split]]]); intros q Hq;
    first [progress in_cases Hq | in_event_cases Hq];
    solve [reflexivity | congruence | split; congruence].
Qed.

Lemma X8_client_in_use_witness :
  svc_client (tl_srv {| tl_srv := mkService (Some (APIKeyClient "key"));
                        tl_q := ["hello"]; tl_target := "ja"; tl_format := "text" |})
  = Some (APIKeyClient "key").
Proof.
  refine (proj1 (proj2 (proj2
    (X8_client_in_use
       (Sample.world [("GOOGLE_TRANSLATE_API_KEY", "key")] ["hello"] "en")
       "ja" "hello"))) _ _).
  vm_compute. left. reflexivity.
Defined.

(** ** Errors and panics *)

(** X9. Every error [runTranslation] returns is one of five: the
    credential error, before anything is called; the error of building the
    API-key client, passed on as it is, before any service is built; the
    error of building the service, passed on as it is, before any detect or
    translate call; the error of the detect call behind the prefix "fail to
    call detection API: ", with no translate call made; the error of the
    translate call behind the prefix "fail to call translate API: ". *)
Theorem X9_errors_of_a_run W lang text e :
  fst (runTranslation W lang text) = Returned (Some e) ->
  let tr := snd (runTranslation W lang text) in
  (e = errNoCredential /\ tr = [])
  \/ (ghttp_NewClient W (Getenv (environ W) "GOOGLE_TRANSLATE_API_KEY") = Some e
      /\ services_built tr = [])
  \/ ((exists c, In c (services_built tr) /\ translate_New W c = Some e)
      /\ detect_calls tr = [] /\ translate_calls tr = [])
  \/ ((exists c err, In c (detect_calls tr) /\ Detections_Do W c = inr err
                     /\ e = fmt_Errorf_v "fail to call detection API: " err)
      /\ translate_calls tr = [])
  \/ (exists c err, In c (translate_calls tr) /\ Translations_Do W c = inr err
                    /\ e = fmt_Errorf_v "fail to call translate API: " err).
Proof.
  cbv zeta. revert e. run_cases W lang text.
  all: intros qe He; try discriminate He; injection He as <-.
  all: cbn [services_built detect_calls translate_calls flat_map app].
  all: first
         [ left; split; reflexivity
         | right; left; split; [first [assumption | reflexivity] | reflexivity]
         | right; right; left; split;
           [eexists; split; [left; reflexivity | eassumption] | split; reflexivity]
         | right; right; right; left; split;
           [do 2 eexists; split; [left; reflexivity | split; [eassumption | reflexivity]]
           | reflexivity]
         | right; right; right; right;
           do 2 eexists; split; [left; reflexivity | split; [eassumption | reflexivity]] ].
Qed.

Lemma X9_errors_of_a_run_witness :
  let W := Sample.failing_world [("GOOGLE_TRANSLATE_API_KEY", "key")] ["hello"] in
  let e := errorString "fail to call translate API: googleapi: Error 403" in
  let tr := snd (runTranslation W "ja" "hello") in
  (e = errNoCredential /\ tr = [])
  \/ (ghttp_NewClient W (Getenv (environ W) "GOOGLE_TRANSLATE_API_KEY") = Some e
      /\ services_built tr = [])
  \/ ((exists c, In c (services_built tr) /\ translate_New W c = Some e)
      /\ detect_calls tr = [] /\ translate_calls tr = [])
  \/ ((exists c err, In c (detect_calls tr) /\ Detections_Do W c = inr err
                     /\ e = fmt_Errorf_v "fail to call detection API: " err)
      /\ translate_calls tr = [])
  \/ (exists c err, In c (translate_calls tr) /\ Translations_Do W c = inr err
                    /\ e = fmt_Errorf_v "fail to call translate API: " err).
Proof.
  cbv zeta.
  apply (X9_errors_of_a_run
           (Sample.failing_world [("GOOGLE_TRANSLATE_API_KEY", "key")] ["hello"])
           "ja" "hello").
  vm_compute. reflexivity.
Defined.

Lemma runTranslation_panics W lang text :
  fst (runTranslation W lang text) = Panicked ->
  let tr := snd (runTranslation W lang text) in
  (exists c resp, In c (detect_calls tr) /\ Detections_Do W c = inl resp
                  /\ (Detections resp = [] \/ exists rest, Detections resp = [] :: rest)
                  /\ translate_calls tr = [])
  \/ (exists c resp, In c (translate_calls tr) /\ Translations_Do W c = inl resp
                     /\ Translations resp = []).
Proof.
  cbv zeta. run_cases W lang text.
  all: intros He; try discriminate He.
  all: cbn [detect_calls translate_calls flat_map app].
  all: first
         [ left; do 2 eexists; split; [left; reflexivity|]; split; [eassumption|];
           split; [|reflexivity]; first [left; eassumption | right; eexists; eassumption]
         | right; do 2 eexists; split; [left; reflexivity|]; split; eassumption ].
Qed.

(** X10. [Main] panics only in translation mode, and only when the service
    answers a call successfully with nothing in it: a detect response with
    no detections for the text (no translate call is then made), or a
    translate response with no translations.  It never panics in browser
    mode, nor before the service has answered. *)
Theorem X10_panics_of_a_run W r flag open :
  fst (Main W r flag open) = Panicked ->
  let tr := snd (Main W r flag open) in
  open = false
  /\ ((exists c resp, In c (detect_calls tr) /\ Detections_Do W c = inl resp
                      /\ (Detections resp = [] \/ exists rest, Detections resp = [] :: rest)
                      /\ translate_calls tr = [])
      \/ (exists c resp, In c (translate_calls tr) /\ Translations_Do W c = inl resp
                         /\ Translations resp = [])).
Proof.
  cbv zeta.
  destruct (Main_cases W r flag open)
    as [(e & es & -> & _) | (lang & text & es & _ & _ & Htext & ->)];
    [discriminate|].
  unfold after. cbn [fst snd]. destruct open; [discriminate|].
  intros Hp. split; [reflexivity|].
  destruct (Main_text_quiet W r text es Htext (snd (runTranslation W lang text)))
    as (-> & -> & _).
  exact (runTranslation_panics W lang text Hp).
Qed.

Lemma X10_panics_of_a_run_witness :
  translate_calls
    (snd (Main (Sample.hollow_world [("GOOGLE_TRANSLATE_API_KEY", "key")] ["hello"])
            (Sample.stdin "") "ja" false)) <> [].
Proof.
  refine (match proj2 (X10_panics_of_a_run
                         (Sample.hollow_world [("GOOGLE_TRANSLATE_API_KEY", "key")] ["hello"])
                         (Sample.stdin "") "ja" false _) with
          | or_introl (ex_intro _ c (ex_intro _ resp (conj H _))) => _
          | or_intror (ex_intro _ c (ex_intro _ resp (conj H _))) => _
          end).
  - vm_compute. reflexivity.
  - vm_compute in H. destruct H.
  - intros E. rewrite E in H. destruct H.
Defined.

(** ** Standard output and the exit status *)

Lemma writes_app tr1 tr2 : writes (tr1 ++ tr2) = writes tr1 ++ writes tr2.
Proof. unfold writes. apply flat_map_app. Qed.

Lemma Main_text_writes W r : writes (snd (Main_text W r)) = [].
Proof. destruct (Main_text_events W r) as [-> | ->]; reflexivity. Qed.

Lemma Main_output W r flag open :
  match fst (Main W r flag open) with
  | Returned None =>
      if open then writes (snd (Main W r flag open)) = []
      else exists c resp x rest,
          In c (translate_calls (snd (Main W r flag open)))
          /\ Translations_Do W c = inl resp
          /\ Translations resp = x :: rest
          /\ writes (snd (Main W r flag open)) = [line (TranslatedText x)]
  | _ => writes (snd (Main W r flag open)) = []
  end.
Proof.
  destruct (Main_cases W r flag open)
    as [(e & es & -> & [-> | ->]) | (lang & text & es & _ & _ & Htext & ->)];
    try reflexivity.
  pose proof (Main_text_writes W r) as Hw. rewrite Htext in Hw. cbn [snd] in Hw.
  unfold after. cbn [fst snd]. rewrite writes_app, Hw. cbn [app]. destruct open.
  - rewrite openGoogleTranslate_spec. cbn [fst snd].
    now destruct (openbrowser_Start W _).
  - destruct (Main_text_quiet W r text es Htext (snd (runTranslation W lang text)))
      as (_ & -> & _).
    pose proof (runTranslation_output W lang text) as Hout.
    destruct (fst (runTranslation W lang text)) as [[e|]|]; try exact Hout.
    destruct Hout as (c & resp & x & rest & Hc & Hdo & Hx & Hwr & _).
    now exists c, resp, x, rest.
Qed.

Lemma main_spec W r flag open :
  main W r flag open =
    match Main W r flag open with
    | (Returned (Some e), tr) => (Returned 1, tr ++ [EvWrite (line (Error e))])
    | (Returned None, tr) => (Returned 0, tr)
    | (Panicked, tr) => (Panicked, tr)
    end.
Proof.
  unfold main, func, bind, call, extern, return_.
  destruct (Main W r flag open) as [[[e|]|] tr]; cbn; now rewrite ?app_nil_r.
Qed.


(** ** A run in which everything answers *)

Lemma runTranslation_succeeds W lang text :
  String.eqb (Getenv (environ W) "GOOGLE_TRANSLATE_API_KEY") ""
  && String.eqb (Getenv (environ W) "GOOGLE_TRANSLATE_ACCESS_TOKEN") "" = false ->
  (Getenv (environ W) "GOOGLE_TRANSLATE_API_KEY" <> "" ->
   ghttp_NewClient W (Getenv (environ W) "GOOGLE_TRANSLATE_API_KEY") = None) ->
  (forall c, translate_New W c = None) ->
  (Getenv (environ W) "GOOGLE_TRANSLATE_SECOND_LANG" <> "" ->
   forall c, exists resp d ds rest,
       Detections_Do W c = inl resp /\ Detections resp = (d :: ds) :: rest) ->
  (forall c, exists resp x rest,
       Translations_Do W c = inl resp /\ Translations resp = x :: rest) ->
  fst (runTranslation W lang text) = Returned None.
Proof.
  intros Hcred Hclient Hsvc Hdet Htr. run_cases W lang text.
  all: try reflexivity.
  all: eqb_facts.
  all: try match goal with
         | H : translate_New _ _ = Some _ |- _ => rewrite Hsvc in H; discriminate H
         | H : ghttp_NewClient _ _ = Some _ |- _ =>
             rewrite Hclient in H by assumption; discriminate H
         end.
  all: try match goal with
         | H : Translations_Do _ ?c = _ |- _ =>
             destruct (Htr c) as (? & ? & ? & ? & ?); congruence
         end.
  all: try match goal with
         | H : Detections_Do _ ?c = _ |- _ =>
             destruct (Hdet ltac:(assumption) c) as (? & ? & ? & ? & ? & ?); congruence
         end.
  all: try discriminate Hcred.
  all: match goal with
       | H : _ <> "" |- _ => specialize (Hclient H); discriminate Hclient
       end.
Qed.



(** ** Browser mode, in general *)

(** X13. Browser mode never touches the translation service and never
    writes to standard output, whatever the credentials and the environment.
    It opens the browser at most once, and only after the target language is
    selected and the input text obtained; the URL is then
    "https://translate.google.com/#auto/", the target language as it
    stands, a slash, and the query-escaped text, and the run returns what the
    browser-open action returns. *)
Theorem X13_browser_mode W r flag :
  let tr := snd (Main W r flag true) in
  network_calls tr = []
  /\ writes tr = []
  /\ forall u, In u (browser_opens tr) ->
       exists lang text,
         selected_target_spec (environ W) flag = Some lang
         /\ fst (Main_text W r) = Next text
         /\ u = "https://translate.google.com/#auto/" +:+ lang +:+ "/"
                +:+ url.QueryEscape text
         /\ browser_opens tr = [u]
         /\ fst (Main W r flag true) = Returned (openbrowser_Start W u).
Proof.
  cbv zeta.
  destruct (Main_cases W r flag true)
    as [(e & es & -> & [-> | ->]) | (lang & text & es & _ & Hsel & Htext & ->)];
    try (repeat split; try reflexivity; intros u []).
  rewrite openGoogleTranslate_spec. unfold after. cbv zeta. cbn [fst snd].
  pose proof (Main_text_writes W r) as Hw. rewrite Htext in Hw. cbn [snd] in Hw.
  rewrite writes_app, Hw.
  destruct (Main_text_quiet W r text es Htext
              [EvOpenBrowser ("https://translate.google.com/#auto/" +:+ lang +:+ "/"
                              +:+ url.QueryEscape text)])
    as (_ & _ & _ & -> & ->).
  split; [reflexivity|]. split; [reflexivity|].
  intros u [<- | []]. exists lang, text. rewrite Htext. repeat split; assumption.
Qed.

Lemma X13_browser_mode_witness :
  exists lang text,
    selected_target_spec
      (environ (Sample.world [("LANG", "ja_JP.UTF-8")] ["hi"; "there"] "en")) ""
    = Some lang
    /\ fst (Main_text (Sample.world [("LANG", "ja_JP.UTF-8")] ["hi"; "there"] "en")
              (Sample.stdin "")) = Next text
    /\ "https://translate.google.com/#auto/ja/hi+there"
       = "https://translate.google.com/#auto/" +:+ lang +:+ "/" +:+ url.QueryEscape text.
Proof.
  destruct (proj2 (proj2
    (X13_browser_mode (Sample.world [("LANG", "ja_JP.UTF-8")] ["hi"; "there"] "en")
       (Sample.stdin "") ""))
    "https://translate.google.com/#auto/ja/hi+there")
    as (lang & text & H1 & H2 & H3 & _).
  - vm_compute. left. reflexivity.
  - exists lang, text. repeat split; assumption.
Defined.

(** ** The escaped text *)

Lemma QueryEscape_cons_safe c s :
  all_bytes url_safe (url.QueryEscape (String c s))
  = all_bytes url_safe (url.QueryEscape s).
Proof. destruct c as [[] [] [] [] [] [] [] []]; reflexivity. Qed.

Lemma QueryEscape_safe s : all_bytes url_safe (url.QueryEscape s) = true.
Proof.
  induction s as [|c s IH]; [reflexivity|]. now rewrite QueryEscape_cons_safe.
Qed.

Lemma all_bytes_has_byte p s c :
  all_bytes p s = true -> has_byte c s -> p c = true.
Proof.
  induction s as [|a s IH]; cbn [all_bytes].
  - intros _ H. now apply has_byte_nil in H.
  - rewrite andb_true_iff, has_byte_cons. intros [Ha Hs] [-> | H]; auto.
Qed.

(** X14. The text part of the URL opened in browser mode is made only of
    letters, digits, and the characters - _ . ~ + and %.  A space, a slash, a
    number sign, a question mark or an ampersand of the input text never
    appears in it as such. *)
Theorem X14_escaped_text_is_url_safe (text : string) (c : ascii) :
  has_byte c (url.QueryEscape text) ->
  url_safe c = true
  /\ c <> " "%char /\ c <> "/"%char /\ c <> "#"%char /\ c <> "?"%char
  /\ c <> "&"%char.
Proof.
  intros H.
  assert (url_safe c = true) as Hc
    by (eapply all_bytes_has_byte; [apply QueryEscape_safe | exact H]).
  split; [exact Hc|].
  repeat split; intros ->; discriminate Hc.
Qed.

Lemma X14_escaped_text_is_url_safe_witness :
  url_safe "+" = true.
Proof.
  refine (proj1 (X14_escaped_text_is_url_safe "hi there" "+" _)).
  apply has_byteb_spec. reflexivity.
Defined.

Lemma unescape_QueryEscape_cons c s :
  unescape (url.QueryEscape (String c s)) = String c (unescape (url.QueryEscape s)).
Proof. destruct c as [[] [] [] [] [] [] [] []]; reflexivity. Qed.

Lemma unescape_QueryEscape s : unescape (url.QueryEscape s) = s.
Proof.
  induction s as [|c s IH]; [reflexivity|].
  now rewrite unescape_QueryEscape_cons, IH.
Qed.

Lemma QueryEscape_inj s1 s2 : url.QueryEscape s1 = url.QueryEscape s2 -> s1 = s2.
Proof.
  intros H. rewrite <- (unescape_QueryEscape s1), <- (unescape_QueryEscape s2).
  now rewrite H.
Qed.

Lemma append_inj_l (p s1 s2 : string) : p +:+ s1 = p +:+ s2 -> s1 = s2.
Proof.
  induction p as [|a p IH]; cbn; [auto|]. intros [= H]. auto.
Qed.

(** X15. Escaping loses nothing: for one target language, two input texts
    that make browser mode open the same URL are the same text. *)
Theorem X15_url_determines_text W lang text1 text2 :
  snd (openGoogleTranslate W lang text1) = snd (openGoogleTranslate W lang text2) ->
  text1 = text2.
Proof.
  rewrite !openGoogleTranslate_spec. cbv zeta. cbn [snd]. intros [= H].
  apply QueryEscape_inj, (append_inj_l "/"), (append_inj_l lang). exact H.
Qed.

Lemma X15_url_determines_text_witness : "hi there" = "hi there".
Proof.
  exact (X15_url_determines_text (Sample.world [] [] "en") "ja" "hi there" "hi there"
           eq_refl).
Defined.
